(** * AI Document Summarizer (app.py): the input-to-summary pipeline

    A shallow embedding of the logic of [app.py]: video-identifier
    extraction, the three loaders, the model catalog and [get_llm], the
    summarization pipeline and the analytics of the results tab.

    Conventions.
    - A Python [str] is a [list ascii], one [ascii] per character (exact for
      text in the range below 256); [py "..."] turns a literal into one.
    - Python integers are [Z]; [len] is [length] (a [nat]) until it enters
      arithmetic.
    - A call that may raise returns an [outcome]; code that writes to the
      page, the file system or the completion service threads a state. *)

From Stdlib Require Import ZArith Ascii String List Lia Bool Arith.
From stdpp Require Import gmap strings list fin_maps.
Import ListNotations.

Abbreviation str := (list ascii).

Definition py (s : string) : str := list_ascii_of_string s.

(** The double-quote character, for HTML attributes inside messages. *)
Definition dq : str := [ascii_of_nat 34].

(** ** Outcomes: a value, or a raised exception carrying its message *)

Inductive outcome (A : Type) : Type :=
| Returns (a : A)
| Raises (msg : str).
Arguments Returns {A} a.
Arguments Raises {A} msg.

Definition obind {A B} (o : outcome A) (k : A -> outcome B) : outcome B :=
  match o with
  | Returns a => k a
  | Raises e => Raises e
  end.

#[global] Instance outcome_bind : MBind outcome := fun A B k o => obind o k.
#[global] Instance outcome_ret : MRet outcome := @Returns.

(** ** Programs: a threaded state and an outcome

    [prog S A] is a piece of Python that reads and writes a state [S] (the
    page, the file system, the record of calls to outside services) and
    returns an [A] or raises. *)

Definition prog (S A : Type) : Type := S -> S * outcome A.

Definition pbind {S A B} (m : prog S A) (k : A -> prog S B) : prog S B :=
  fun s =>
    match m s with
    | (s', Returns a) => k a s'
    | (s', Raises e) => (s', Raises e)
    end.

#[global] Instance prog_bind {S} : MBind (prog S) := fun A B k m => pbind m k.
#[global] Instance prog_ret {S} : MRet (prog S) := fun A a s => (s, Returns a).

(** A call whose outcome does not depend on the state. *)
Definition lift {S A} (o : outcome A) : prog S A := fun s => (s, o).

(** [try: m  except Exception as e: h e] *)
Definition try_except {S A} (m : prog S A) (h : str -> prog S A) : prog S A :=
  fun s =>
    match m s with
    | (s', Raises e) => h e s'
    | r => r
    end.

(** [l[i]]: IndexError when out of range. *)
Definition index {A} (l : list A) (i : nat) : outcome A :=
  match nth_error l i with
  | Some x => Returns x
  | None => Raises (py "list index out of range")
  end.

(** ** Python string operations *)

Module PyStr.

(** [str.isspace] on one character: tab to carriage return, the four
    separators 28..31, space, NEL and the no-break space. *)
Definition is_space (c : ascii) : bool :=
  let n := nat_of_ascii c in
  ((9 <=? n) && (n <=? 13)) || ((28 <=? n) && (n <=? 32))
  || (n =? 133) || (n =? 160).

(** [s.startswith(p)] *)
Fixpoint startswith (p s : str) : bool :=
  match p, s with
  | [], _ => true
  | _ :: _, [] => false
  | a :: p', b :: s' => Ascii.eqb a b && startswith p' s'
  end.

(** [sub in s] *)
Fixpoint contains (sub s : str) : bool :=
  startswith sub s ||
  match s with
  | [] => false
  | _ :: s' => contains sub s'
  end.

(** [s.split(sep)] for a non-empty [sep] (Python raises ValueError on an
    empty one; every call in the program passes a literal). The scan goes
    left to right; on a match the field read so far is closed and the
    separator is skipped. [skip] counts the characters of a matched
    separator still to pass over, [cur] is the current field, reversed. *)
Fixpoint split_go (sep : str) (skip : nat) (cur : str) (s : str) : list str :=
  match s with
  | [] => [rev cur]
  | c :: s' =>
      match skip with
      | S k => split_go sep k cur s'
      | O =>
          if startswith sep s
          then rev cur :: split_go sep (length sep - 1) [] s'
          else split_go sep 0 (c :: cur) s'
      end
  end.

Definition split (sep s : str) : list str := split_go sep 0 [] s.

(** [sep.join(l)] *)
Fixpoint join (sep : str) (l : list str) : str :=
  match l with
  | [] => []
  | [x] => x
  | x :: rest => x ++ sep ++ join sep rest
  end.

(** [s.count(sub)]: non-overlapping occurrences, left to right. *)
Fixpoint count_go (sub : str) (skip : nat) (s : str) : nat :=
  match s with
  | [] => 0
  | _ :: s' =>
      match skip with
      | S k => count_go sub k s'
      | O =>
          if startswith sub s
          then S (count_go sub (length sub - 1) s')
          else count_go sub 0 s'
      end
  end.

Definition count (sub s : str) : nat := count_go sub 0 s.

(** [s.split()]: fields are the maximal runs without whitespace. *)
Fixpoint split_ws_go (cur : str) (s : str) : list str :=
  match s with
  | [] => match cur with [] => [] | _ => [rev cur] end
  | c :: s' =>
      if is_space c
      then match cur with
           | [] => split_ws_go [] s'
           | _ => rev cur :: split_ws_go [] s'
           end
      else split_ws_go (c :: cur) s'
  end.

Definition split_ws (s : str) : list str := split_ws_go [] s.

Fixpoint lstrip (s : str) : str :=
  match s with
  | c :: s' => if is_space c then lstrip s' else s
  | [] => []
  end.

(** [s.strip()] *)
Definition strip (s : str) : str := rev (lstrip (rev (lstrip s))).

(** Truth value of a string: non-empty. *)
Definition truthy (s : str) : bool :=
  match s with [] => false | _ => true end.

End PyStr.

(** ** Video-identifier extraction *)

Module Video.
Import PyStr.

Definition extract_video_id (youtube_url : str) : outcome (option str) :=
  if contains (py "youtu.be/") youtube_url then
    a ← index (split (py "youtu.be/") youtube_url) 1;
    b ← index (split (py "?") a) 0;
    Returns (Some b)
  else if contains (py "watch?v=") youtube_url then
    a ← index (split (py "watch?v=") youtube_url) 1;
    b ← index (split (py "&") a) 0;
    Returns (Some b)
  else Returns None.

(** Where the identifier sits: right after the first [marker], and up to
    the next [d], the next [marker] or the end of the URL. *)
Definition sits_after (marker : str) (d : ascii) (url ident : str) : Prop :=
  ~ In d ident
  /\ exists pre rest,
       url = pre ++ marker ++ ident ++ rest
       /\ contains marker pre = false
       /\ (rest = [] \/ startswith [d] rest = true \/ startswith marker rest = true).

End Video.

(** ** Documents, page output *)

Inductive meta_value : Type :=
| MStr (s : str)
| MBool (b : bool)
| MInt (n : Z).

Record Document : Type := mkDocument {
  page_content : str;
  metadata : gmap str meta_value
}.

(** What the program writes to the page. *)
Inductive ui_event : Type :=
| StError (msg : str)
| StMarkdown (html : str).

Definition nl : str := [ascii_of_nat 10].

(** ** The model catalog and [get_llm] *)

Module Catalog.

Record ModelConfig : Type := mkModel {
  id : str;
  context : str;
  description : str;
  category : str;
  speed : str;
  cost : str
}.

Definition GROQ_MODELS : gmap str ModelConfig :=
  list_to_map [
    (py "🚀 Llama 3.1 8B (Fast)",
     mkModel (py "llama-3.1-8b-instant") (py "131K")
       (py "Fast and efficient, great for quick summaries")
       (py "production") (py "⚡ Ultra-fast") (py "💰 Low"));
    (py "🧠 Llama 3.3 70B (Smart)",
     mkModel (py "llama-3.3-70b-versatile") (py "131K")
       (py "Larger model for better quality and reasoning")
       (py "production") (py "⚡ Fast") (py "💰 Medium"));
    (py "🔥 GPT-OSS 120B (Premium)",
     mkModel (py "openai/gpt-oss-120b") (py "131K")
       (py "OpenAI's flagship open model with reasoning")
       (py "production") (py "⚡ Fast") (py "💰 High"));
    (py "⭐ GPT-OSS 20B (Balanced)",
     mkModel (py "openai/gpt-oss-20b") (py "131K")
       (py "Balanced performance and efficiency")
       (py "production") (py "⚡ Very Fast") (py "💰 Medium"));
    (py "🔬 Llama 4 Maverick 17B",
     mkModel (py "meta-llama/llama-4-maverick-17b-128e-instruct") (py "131K")
       (py "Experimental Llama 4 preview model")
       (py "preview") (py "⚡ Fast") (py "💰 Medium"));
    (py "🛡️ Llama 4 Scout 17B",
     mkModel (py "meta-llama/llama-4-scout-17b-16e-instruct") (py "131K")
       (py "Advanced reasoning and analysis")
       (py "preview") (py "⚡ Fast") (py "💰 Medium"));
    (py "🌙 Kimi K2 Instruct",
     mkModel (py "moonshotai/kimi-k2-instruct-0905") (py "262K")
       (py "Ultra-long context window for large documents")
       (py "preview") (py "⚡ Medium") (py "💰 High"));
    (py "🤖 Qwen3 32B",
     mkModel (py "qwen/qwen3-32b") (py "131K")
       (py "Alibaba's advanced multilingual model")
       (py "preview") (py "⚡ Fast") (py "💰 Medium"))
  ].

(** The arguments [get_llm] passes to the completion client. *)
Record ChatGroq : Type := mkChatGroq {
  temperature : Z;
  model : str;
  max_tokens : option Z;
  timeout : option Z;
  max_retries : Z
}.

(** [GROQ_MODELS[k]]: KeyError when absent. *)
Definition getitem (k : str) : outcome ModelConfig :=
  match GROQ_MODELS !! k with
  | Some m => Returns m
  | None => Raises k
  end.

(** [selected_model] is [st.session_state.selected_model]. *)
Definition get_llm (selected_model : str) : outcome ChatGroq :=
  model_config ← getitem selected_model;
  Returns {| temperature := 0;
             model := id model_config;
             max_tokens := None;
             timeout := None;
             max_retries := 2 |}.

End Catalog.

(** ** The PDF loader *)

Module Pdf.

(** The files on disk (path to contents) and the page. *)
Record world : Type := mkWorld {
  files : gmap str str;
  page : list ui_event
}.

Definition st_error (msg : str) : prog world unit :=
  fun w => (mkWorld (files w) (page w ++ [StError msg]), Returns tt).

Section Loader.

(** The name [tempfile.NamedTemporaryFile(delete=False, suffix=".pdf")]
    picks, given the files that exist. *)
Variable temp_name : gmap str str -> str.

(** The PDF parser on the bytes of a file: pages, or an exception. *)
Variable parse_pdf : str -> outcome (list Document).

(** [with NamedTemporaryFile(...) as tmp_file: tmp_file.write(data)]; the
    file stays on disk when the block ends ([delete=False]). *)
Definition write_temp (data : str) : prog world str :=
  fun w =>
    let path := temp_name (files w) in
    (mkWorld (<[path := data]> (files w)) (page w), Returns path).

(** [PyPDFLoader(path).load()] *)
Definition loader_load (path : str) : prog world (list Document) :=
  fun w =>
    match files w !! path with
    | Some data => (w, parse_pdf data)
    | None => (w, Raises (py "File path is not a valid file or url"))
    end.

(** [os.unlink(path)] *)
Definition unlink (path : str) : prog world unit :=
  fun w =>
    match files w !! path with
    | Some _ => (mkWorld (delete path (files w)) (page w), Returns tt)
    | None => (w, Raises (py "No such file or directory"))
    end.

(** [uploaded] is [uploaded_file.getvalue()]. *)
Definition load_pdf_documents (uploaded : str) : prog world (option (list Document)) :=
  try_except
    (tmp_file_path ← write_temp uploaded;
     documents ← loader_load tmp_file_path;
     _ ← unlink tmp_file_path;
     mret (Some documents))
    (fun e =>
       _ ← st_error (py "Error loading PDF: " ++ e);
       mret None).

End Loader.
End Pdf.

(** ** The YouTube loader *)

Module YouTube.
Import PyStr Video.

Record FetchedTranscript : Type := mkTranscript {
  snippets : list str;
  language : str;
  language_code : str;
  is_generated : bool
}.

Definition st_error (msg : str) : prog (list ui_event) unit :=
  fun page => (page ++ [StError msg], Returns tt).

Definition st_markdown (html : str) : prog (list ui_event) unit :=
  fun page => (page ++ [StMarkdown html], Returns tt).

(** [s[:n]] *)
Definition upto (n : nat) (s : str) : str := take n s.

Definition sp (n : nat) : str := repeat (ascii_of_nat 32) n.

(** The f-string shown when both strategies fail: its text before the
    first placeholder, *)
Definition no_captions_head : str :=
  nl ++ sp 16 ++ py "<div class=" ++ dq ++ py "status-error" ++ dq ++ py ">" ++ nl
  ++ sp 20 ++ py "<span style=" ++ dq ++ py "font-size: 1.2rem;" ++ dq ++ py ">❌</span>" ++ nl
  ++ sp 20 ++ py "<div>" ++ nl
  ++ sp 24 ++ py "<strong>Could not fetch YouTube transcript</strong><br>" ++ nl
  ++ sp 24 ++ py "This could be due to:<br>" ++ nl
  ++ sp 24 ++ py "• Video has no subtitles/captions<br>" ++ nl
  ++ sp 24 ++ py "• Subtitles are disabled<br>" ++ nl
  ++ sp 24 ++ py "• Video is private or restricted<br>" ++ nl
  ++ sp 24 ++ py "• Geographic restrictions<br><br>" ++ nl
  ++ sp 24 ++ py "<small>Primary: ".

(** its text after the second placeholder, *)
Definition no_captions_tail : str :=
  py "...</small>" ++ nl
  ++ sp 20 ++ py "</div>" ++ nl
  ++ sp 16 ++ py "</div>" ++ nl
  ++ sp 16.

(** and the whole, with [str(e)[:100]] and [str(fallback_error)[:100]] in
    place; [e] and [fallback_error] are the messages of the exceptions. *)
Definition no_captions_html (e fallback_error : str) : str :=
  no_captions_head ++ upto 100 e ++ py "... | Fallback: "
  ++ upto 100 fallback_error ++ no_captions_tail.

Section Loader.

(** Whether [youtube_transcript_api] could be imported. *)
Variable YOUTUBE_AVAILABLE : bool.

(** [YouTubeTranscriptApi().fetch(video_id)] *)
Variable fetch : str -> outcome FetchedTranscript.

(** [YoutubeLoader.from_youtube_url(url, add_video_info=True).load()],
    import included. *)
Variable youtube_loader_load : str -> outcome (list Document).

Definition transcript_document (youtube_url video_id : str) (t : FetchedTranscript)
  : Document :=
  {| page_content := join (py " ") (snippets t);
     metadata :=
       list_to_map [
         (py "source", MStr youtube_url);
         (py "video_id", MStr video_id);
         (py "language", MStr (language t));
         (py "language_code", MStr (language_code t));
         (py "is_generated", MBool (is_generated t))
       ] |}.

(** [if not video_id] holds for [None] and for the empty string: the
    second branch of the match. *)
Definition load_youtube_documents (youtube_url : str)
  : prog (list ui_event) (option (list Document)) :=
  if negb YOUTUBE_AVAILABLE then
    _ ← st_error (py "YouTube transcript functionality not available. Please install: pip install youtube-transcript-api");
    mret None
  else
    try_except
      (video_id ← lift (extract_video_id youtube_url);
       match video_id with
       | Some ((_ :: _) as video_id) =>
           try_except
             (fetched_transcript ← lift (fetch video_id);
              mret (Some [transcript_document youtube_url video_id fetched_transcript]))
             (fun e =>
                try_except
                  (documents ← lift (youtube_loader_load youtube_url);
                   mret (Some documents))
                  (fun fallback_error =>
                     _ ← st_markdown (no_captions_html e fallback_error);
                     mret None))
       | _ =>
           _ ← st_error (py "Invalid YouTube URL format");
           mret None
       end)
      (fun e =>
         _ ← st_error (py "Error loading YouTube video: " ++ e);
         mret None).

End Loader.
End YouTube.

(** ** The Chunker *)

Module Chunker.

Section Windows.

Variables (maxSize overlap : nat) (sep : ascii).

(** Modelled from the spec: where a window may end. Among the first [n]
    characters of [s] (of which [i] were passed already), the last
    position just after a separator that lies past the first [overlap]
    characters, those a window repeats from the one before it. *)
Fixpoint last_boundary (n i : nat) (s : str) (best : option nat) : option nat :=
  match n, s with
  | S n', c :: s' =>
      last_boundary n' (S i) s'
        (if Ascii.eqb c sep && (overlap <? S i) then Some (S i) else best)
  | _, _ => best
  end.

(** Modelled from the spec: the end of an unsplittable unit, the first
    position just after a separator, counting from [i]. *)
Fixpoint next_boundary (i : nat) (s : str) : option nat :=
  match s with
  | [] => None
  | c :: s' => if Ascii.eqb c sep then Some (S i) else next_boundary (S i) s'
  end.

(** Modelled from the spec: the length of the window that starts a text
    longer than [maxSize]. It reaches to the last separator within
    [maxSize] characters; with no separator there, the unsplittable unit
    up to the next separator (or the end of the text) is taken whole, an
    oversized window. *)
Definition cut (s : str) : nat :=
  match last_boundary maxSize 0 s None with
  | Some k => k
  | None =>
      match next_boundary maxSize (drop maxSize s) with
      | Some k => k
      | None => length s
      end
  end.

(** Modelled from the spec: the Chunker of section 4.2; the program calls
    the text splitter of a library whose code is not in the repository.
    Windows are slices of the text, front to back; a window holds at most
    [maxSize] characters and ends just after a separator, unless no
    separator is in reach, when it is oversized; the next window starts
    [overlap] characters before the end of the one before it; the text
    that remains when [maxSize] characters or fewer are left is the final
    window. *)
Fixpoint windows (fuel : nat) (s : str) : list str :=
  match fuel with
  | O => [s]
  | S fuel' =>
      if length s <=? maxSize then [s]
      else
        let k := cut s in
        if k <? length s
        then take k s :: windows fuel' (drop (k - overlap) s)
        else [s]
  end.

(** Modelled from the spec: the windows of a text; every step of
    [windows] moves on by a character at least, so the length of the text
    is fuel enough. *)
Definition split_text (s : str) : list str := windows (length s) s.

(** Modelled from the spec: concatenating the windows with the
    duplicated overlap regions removed. *)
Definition reconstruct (ws : list str) : str :=
  match ws with
  | [] => []
  | w :: rest => w ++ concat (map (drop overlap) rest)
  end.

(** Modelled from the spec: the Chunker on documents; every document is
    cut into windows that keep its metadata. *)
Definition split_documents (docs : list Document) : list Document :=
  flat_map
    (fun d => map (fun w => mkDocument w (metadata d)) (split_text (page_content d)))
    docs.

End Windows.

(** The newline. *)
Definition newline : ascii := ascii_of_nat 10.

(** Modelled from the spec: the Chunker as the pipeline calls it, with
    the split boundary given as a string of one character. *)
Definition text_splitter (chunk_size chunk_overlap : nat) (separator : str)
    (docs : list Document) : list Document :=
  match separator with
  | [c] => split_documents chunk_size chunk_overlap c docs
  | _ => docs
  end.

End Chunker.

(** ** The summarization pipeline *)

Module Pipeline.
Import Catalog.

(** What the pipeline does to the outside: a call to the splitter, a
    call to the completion service, a message on the page. *)
Inductive event : Type :=
| ESplit (docs : list Document)
| EInvoke (llm : ChatGroq) (input_documents : list Document)
| EPage (e : ui_event).

Definition is_invoke (e : event) : bool :=
  match e with EInvoke _ _ => true | _ => false end.

Definition is_split (e : event) : bool :=
  match e with ESplit _ => true | _ => false end.

(** The inputs of the completion calls, in the order made. *)
Definition invocations (tr : list event) : list (list Document) :=
  omap (fun e => match e with EInvoke _ d => Some d | _ => None end) tr.

Section Summarize.

(** The completion service behind the chain: the [output_text] of
    [chain.invoke({"input_documents": docs})] with the chain built on
    [llm], or the exception it raises. *)
Variable complete : ChatGroq -> list Document -> outcome str.

(** [CharacterTextSplitter(chunk_size, chunk_overlap, separator)
    .split_documents]. *)
Variable text_splitter : nat -> nat -> str -> list Document -> list Document.

Definition chain_invoke (llm : ChatGroq) (docs : list Document) : prog (list event) str :=
  fun tr => (tr ++ [EInvoke llm docs], complete llm docs).

Definition split_documents (docs : list Document) : prog (list event) (list Document) :=
  fun tr => (tr ++ [ESplit docs], Returns (text_splitter 4000 200 nl docs)).

Definition st_error (msg : str) : prog (list event) unit :=
  fun tr => (tr ++ [EPage (StError msg)], Returns tt).

(** The loop over the chunks; [summaries] is the list built so far. *)
Fixpoint summarize_chunks (llm : ChatGroq) (split_docs summaries : list Document)
  : prog (list event) (list Document) :=
  match split_docs with
  | [] => mret summaries
  | doc :: rest =>
      summary ← chain_invoke llm [doc];
      summarize_chunks llm rest (summaries ++ [mkDocument summary ∅])
  end.

(** [len(documents) == 1 and len(documents[0].page_content) > 4000] *)
Definition is_large (documents : list Document) : bool :=
  match documents with
  | [d] => 4000 <? length (page_content d)
  | _ => false
  end.

Definition summarize_documents (documents : list Document) (llm : ChatGroq)
  : prog (list event) (option str) :=
  let single : prog (list event) (option str) :=
    summary ← chain_invoke llm documents;
    mret (Some summary) in
  try_except
    (if is_large documents then
       split_docs ← split_documents documents;
       if 1 <? length split_docs then
         summaries ← summarize_chunks llm split_docs [];
         final_summary ← chain_invoke llm summaries;
         mret (Some final_summary)
       else single
     else single)
    (fun e =>
       _ ← st_error (py "Error during summarization: " ++ e);
       mret None).

(** The two calls of the "Generate AI Summary" button:
    [llm = get_llm(); summary = summarize_documents(documents, llm)]. *)
Definition generate_summary (selected_model : str) (documents : list Document)
  : prog (list event) (option str) :=
  llm ← lift (get_llm selected_model);
  summarize_documents documents llm.

End Summarize.

(** An event is in order when, if it is a completion call, it is made
    with the configuration [llm]. *)
Definition made_with (llm : ChatGroq) (e : event) : Prop :=
  match e with
  | EInvoke l _ => l = llm
  | _ => True
  end.

(** A program that adds only events in order. *)
Definition keeps {A} (llm : ChatGroq) (m : prog (list event) A) : Prop :=
  forall tr, Forall (made_with llm) tr -> Forall (made_with llm) (m tr).1.

(** A completion stub that always answers: [f] of its input. *)
Definition stub (f : list Document -> str) : ChatGroq -> list Document -> outcome str :=
  fun _ docs => Returns (f docs).

(** The stub that echoes ["summary:" + input], the input being the
    contents of the documents it is given. *)
Definition echo (docs : list Document) : str :=
  py "summary:" ++ concat (map page_content docs).

(** The intermediate summary of a chunk, with the stub [f]. *)
Definition intermediate (f : list Document -> str) (c : Document) : Document :=
  mkDocument (f [c]) ∅.

End Pipeline.

(** ** Analytics of the results tab *)

Module Analytics.
Import PyStr.

Record session_state : Type := mkState {
  summary_result : str;
  documents : option (list Document);
  content_loaded : bool;
  input_type : option str;
  selected_method : str;
  selected_model : str
}.

Definition word_count (s : str) : Z := Z.of_nat (length (split_ws s)).

Definition char_count (s : str) : Z := Z.of_nat (length s).

(** [max(1, word_count // 200)] *)
Definition reading_time (s : str) : Z := Z.max 1 (word_count s / 200).

Definition sentences (s : str) : Z :=
  Z.of_nat (count (py ".") s) + Z.of_nat (count (py "!") s) + Z.of_nat (count (py "?") s).

(** [len([p for p in s.split('\n') if p.strip()])] *)
Definition paragraphs (s : str) : Z :=
  Z.of_nat (length (filter (fun p => truthy (strip p) = true) (split nl s))).

Record metrics : Type := mkMetrics {
  m_word_count : Z;
  m_char_count : Z;
  m_reading_time : Z;
  m_sentences : Z;
  m_paragraphs : Z
}.

(** The analytics tab: it reads [st.session_state.summary_result] and
    writes nothing back. *)
Definition analytics_tab (st : session_state) : session_state * metrics :=
  let text := summary_result st in
  (st, {| m_word_count := word_count text;
          m_char_count := char_count text;
          m_reading_time := reading_time text;
          m_sentences := sentences text;
          m_paragraphs := paragraphs text |}).

(** The number of words, read off the text directly: a word starts at
    every character that is not whitespace and follows whitespace or the
    start of the text. [prev_space] tells whether the character before
    was whitespace (or there was none). *)
Fixpoint word_starts (prev_space : bool) (s : str) : nat :=
  match s with
  | [] => 0
  | c :: s' =>
      (if prev_space && negb (is_space c) then 1 else 0)
      + word_starts (is_space c) s'
  end.

Definition is_nil (s : str) : bool :=
  match s with [] => true | _ => false end.

(** A word: not empty, and without whitespace. *)
Definition is_word (w : str) : Prop :=
  w <> [] /\ Forall (fun c => is_space c = false) w.

End Analytics.

(** ** Sample inputs *)

Module Samples.
Import PyStr Catalog Pipeline YouTube.

(** A parser that accepts only bytes starting with the PDF header. *)
Definition header_parser (data : str) : outcome (list Document) :=
  if startswith (py "%PDF-") data
  then Returns [mkDocument data ∅]
  else Raises (py "invalid pdf header").

Definition tmp_path : str := py "/tmp/tmpk3v9x2.pdf".

(** A transcript service and a fallback loader that both fail. *)
Definition failing_fetch (video_id : str) : outcome FetchedTranscript :=
  Raises (py "Could not retrieve a transcript for the video " ++ video_id).

Definition failing_loader (youtube_url : str) : outcome (list Document) :=
  Raises (py "No module named 'pytube'").

(** The configuration [get_llm] builds for the default model. *)
Definition llm0 : ChatGroq :=
  mkChatGroq 0 (py "llama-3.1-8b-instant") None None 2.

(** Three documents of 9000 characters: without a newline; 90 lines of 99
    characters and a newline; 3999 characters, a newline and 5000 more. *)
Definition flat_text : str := repeat "a"%char (9 * 1000).
Definition lines_text : str := concat (repeat (repeat "b"%char 99 ++ nl) 90).
Definition two_part_text : str :=
  repeat "a"%char 3999 ++ nl ++ repeat "b"%char (5 * 1000).

(** The inputs of the completion calls the pipeline makes on one document
    of content [text], with the echo stub and the Chunker. *)
Definition calls_on (text : str) : list (list Document) :=
  invocations
    (summarize_documents (stub echo) Chunker.text_splitter [mkDocument text ∅] llm0 []).1.

Definition short_docs : list Document :=
  [mkDocument (py "first page") ∅; mkDocument (py "second page") ∅;
   mkDocument (py "third page") ∅].

End Samples.

(** ** The URL loader *)

Module Url.

Definition st_error (msg : str) : prog (list ui_event) unit :=
  fun page => (page ++ [StError msg], Returns tt).

Section Loader.

(** [UnstructuredURLLoader(urls=[url]).load()] *)
Variable url_loader_load : str -> outcome (list Document).

Definition load_url_documents (url : str)
  : prog (list ui_event) (option (list Document)) :=
  try_except
    (documents ← lift (url_loader_load url);
     mret (Some documents))
    (fun e =>
       _ ← st_error (py "Error loading URL: " ++ e);
       mret None).

End Loader.
End Url.

(** ** Labels built from the model identifier *)

Module Labels.
Import PyStr Catalog.

(** [s.replace(old, new)] for a non-empty [old]: the occurrences of [old],
    found left to right without overlap, give way to [new]. *)
Fixpoint replace_go (old new : str) (skip : nat) (s : str) : str :=
  match s with
  | [] => []
  | c :: s' =>
      match skip with
      | S k => replace_go old new k s'
      | O =>
          if startswith old s
          then new ++ replace_go old new (length old - 1) s'
          else c :: replace_go old new 0 s'
      end
  end.

Definition replace (old new s : str) : str := replace_go old new 0 s.

(** [c.lower()] on one character: the letters A to Z and the capital
    letters of the range 192 to 222 (215, the multiplication sign, is not
    one) move up by 32. *)
Definition lower_char (c : ascii) : ascii :=
  let n := nat_of_ascii c in
  if ((65 <=? n) && (n <=? 90))
     || ((192 <=? n) && (n <=? 222) && negb (n =? 215))
  then ascii_of_nat (n + 32)
  else c.

(** [s.lower()] *)
Definition lower (s : str) : str := map lower_char s.

(** [l[-1]]: IndexError on the empty list. *)
Definition index_last {A} (l : list A) : outcome A :=
  match last l with
  | Some x => Returns x
  | None => Raises (py "list index out of range")
  end.

(** The name of the downloaded file; [timestamp] is
    [datetime.now().strftime("%Y%m%d_%H%M%S")], [input_type] and
    [selected_model] are the fields of the session state. *)
Definition download_filename (selected_model input_type timestamp : str)
  : outcome str :=
  model_config ← getitem selected_model;
  let model_name := replace (py "/") (py "_") (id model_config) in
  Returns (lower input_type ++ py "_" ++ model_name ++ py "_" ++ timestamp
           ++ py ".txt").

(** The "Model Used" metric: [current_model['id'].split('/')[-1]]. *)
Definition model_used (selected_model : str) : outcome str :=
  current_model ← getitem selected_model;
  index_last (split (py "/") (id current_model)).

End Labels.

(** ** The session state as a dictionary *)

Module Session.

Inductive sval : Type :=
| VStr (s : str)
| VBool (b : bool)
| VDocs (d : list Document)
| VNone.

(** [if key not in st.session_state: st.session_state[key] = v] *)
Definition init_key (key : str) (v : sval) (st : gmap str sval) : gmap str sval :=
  match st !! key with
  | Some _ => st
  | None => <[key := v]> st
  end.

(** Six keys initialised in turn. *)
Definition init_six (a b c d e f : str) (va vb vc vd ve vf : sval)
    (st : gmap str sval) : gmap str sval :=
  init_key f vf (init_key e ve (init_key d vd (init_key c vc
    (init_key b vb (init_key a va st))))).

(** The initialisation block at the top of the script. *)
Definition init_session_state (st : gmap str sval) : gmap str sval :=
  let st := init_key (py "summary_result") (VStr []) st in
  let st := init_key (py "documents") VNone st in
  let st := init_key (py "content_loaded") (VBool false) st in
  let st := init_key (py "input_type") VNone st in
  let st := init_key (py "selected_method") (VStr (py "📄 PDF Document")) st in
  init_key (py "selected_model") (VStr (py "🚀 Llama 3.1 8B (Fast)")) st.

Definition reset_content_state (st : gmap str sval) : gmap str sval :=
  let st := <[py "content_loaded" := VBool false]> st in
  let st := <[py "documents" := VNone]> st in
  <[py "summary_result" := VStr []]> st.

(** [if key in st.session_state: del st.session_state[key]] *)
Definition drop_key (st : gmap str sval) (key : str) : gmap str sval :=
  match st !! key with
  | Some _ => delete key st
  | None => st
  end.

(** The "Create New Summary" button, up to the rerun. *)
Definition new_summary (st : gmap str sval) : gmap str sval :=
  foldl drop_key st
    [py "summary_result"; py "content_loaded"; py "documents"; py "input_type"].

(** A click on a method card: the method is recorded and the content
    state reset. *)
Definition select_method (method : str) (st : gmap str sval) : gmap str sval :=
  reset_content_state (<[py "selected_method" := VStr method]> st).

End Session.

(** ** How a run of the pipeline ends, and more sample inputs *)

Module Endings.
Import PyStr Catalog Pipeline.

(** A run ends well when it returns the answer to the last call made,
    or returns nothing after the last call made raised and its message
    went to the page. *)
Definition ends_well (complete : ChatGroq -> list Document -> outcome str)
    (llm : ChatGroq) (tr : list event) (r : option str) : Prop :=
  match r with
  | Some s =>
      exists before input,
        tr = before ++ [EInvoke llm input] /\ complete llm input = Returns s
  | None =>
      exists before input e,
        tr = before ++ [EInvoke llm input;
                        EPage (StError (py "Error during summarization: " ++ e))]
        /\ complete llm input = Raises e
  end.

(** A splitter that returns three fixed parts. *)
Definition three_parts_splitter (chunk_size chunk_overlap : nat) (separator : str)
    (docs : list Document) : list Document :=
  [mkDocument (py "part one") ∅; mkDocument (py "part two") ∅;
   mkDocument (py "part three") ∅].

(** A completion service that fails on the second part. *)
Definition flaky (llm : ChatGroq) (docs : list Document) : outcome str :=
  if contains (py "two") (concat (map page_content docs))
  then Raises (py "rate limit reached")
  else Returns (py "ok").

End Endings.

(** ** Characters and lines the metrics count *)

Module Marks.
Import PyStr.

(** A character that ends a sentence for the sentence count. *)
Definition ends_sentence (x : ascii) : bool :=
  Ascii.eqb "."%char x || Ascii.eqb "!"%char x || Ascii.eqb "?"%char x.

Definition non_space (c : ascii) : bool := negb (is_space c).

(** The lines that count as paragraphs: [p.strip()] is not empty. *)
Definition paragraph_lines (lines : list str) : nat :=
  length (filter (fun p => truthy (strip p) = true) lines).

End Marks.

(** * Facts about the string operations *)

Module PyStrFacts.
Import PyStr.

Lemma startswith_app (p s : str) : startswith p (p ++ s) = true.
Proof.
  induction p as [|a p IH]; simpl; [reflexivity|].
  rewrite Ascii.eqb_refl. exact IH.
Qed.

Lemma startswith_split (p s : str) :
  startswith p s = true -> s = p ++ drop (length p) s.
Proof.
  revert s. induction p as [|a p IH]; intros s H; simpl in *.
  - reflexivity.
  - destruct s as [|b s]; [discriminate|].
    apply andb_prop in H as [Hab Hps].
    apply Ascii.eqb_eq in Hab. subst b. simpl.
    f_equal. apply IH, Hps.
Qed.

Lemma startswith_weaken (p s t : str) :
  startswith p s = true -> startswith p (s ++ t) = true.
Proof.
  revert s. induction p as [|a p IH]; intros s H; simpl in *; [reflexivity|].
  destruct s as [|b s]; [discriminate|]. simpl.
  apply andb_prop in H as [Hab Hps].
  rewrite Hab. simpl. apply IH, Hps.
Qed.

Lemma contains_startswith (sub s : str) :
  startswith sub s = true -> contains sub s = true.
Proof. intros H. destruct s; simpl in *; rewrite H; reflexivity. Qed.

Lemma contains_app (sub pre post : str) :
  contains sub (pre ++ sub ++ post) = true.
Proof.
  induction pre as [|c pre IH].
  - simpl app. apply contains_startswith, startswith_app.
  - simpl. simpl in IH. rewrite IH. apply orb_true_r.
Qed.

Lemma contains_nil_false (sub : str) : sub <> [] -> contains sub [] = false.
Proof. destruct sub; [congruence | reflexivity]. Qed.

Lemma contains_cons (sub : str) (c : ascii) (s : str) :
  contains sub (c :: s) = startswith sub (c :: s) || contains sub s.
Proof. reflexivity. Qed.

(** Passing over the rest of a matched separator. *)
Lemma split_go_skip (sep p cur rest : str) :
  split_go sep (length p) cur (p ++ rest) = split_go sep 0 cur rest.
Proof.
  induction p as [|a p IH]; simpl; [reflexivity | exact IH].
Qed.

(** The scan, one step at a time. *)
Lemma split_go_step (sep cur : str) (c : ascii) (s : str) :
  sep <> [] ->
  split_go sep 0 cur (c :: s) =
    if startswith sep (c :: s)
    then rev cur :: split_go sep 0 [] (drop (length sep) (c :: s))
    else split_go sep 0 (c :: cur) s.
Proof.
  intros Hsep. simpl split_go.
  destruct (startswith sep (c :: s)) eqn:E; [|reflexivity].
  f_equal.
  destruct sep as [|a sep]; [congruence|].
  simpl in E. apply andb_prop in E as [_ E].
  simpl. rewrite Nat.sub_0_r.
  rewrite (startswith_split _ _ E) at 1.
  apply split_go_skip.
Qed.

Lemma drop_length_lt (sep : str) (c : ascii) (s : str) :
  sep <> [] -> length (drop (length sep) (c :: s)) < length (c :: s).
Proof.
  intros H. rewrite length_drop. destruct sep; [congruence|]. simpl. lia.
Qed.

(** The field under construction only prefixes the first field. *)
Lemma split_go_cur (sep cur s : str) :
  sep <> [] ->
  split_go sep 0 cur s =
    match split sep s with
    | x :: tl => (rev cur ++ x) :: tl
    | [] => []
    end.
Proof.
  intros Hsep. unfold split. revert cur.
  induction s as [|c s IH]; intros cur.
  - simpl. rewrite app_nil_r. reflexivity.
  - rewrite !split_go_step by assumption.
    destruct (startswith sep (c :: s)).
    + simpl. rewrite app_nil_r. reflexivity.
    + rewrite (IH (c :: cur)), (IH [c]).
      destruct (split_go sep 0 [] s); [reflexivity|].
      simpl. rewrite <- app_assoc. reflexivity.
Qed.

(** [split] as a recursive function of the text. *)
Lemma split_nil (sep : str) : split sep [] = [[]].
Proof. reflexivity. Qed.

Lemma split_cons (sep : str) (c : ascii) (s : str) :
  sep <> [] ->
  split sep (c :: s) =
    if startswith sep (c :: s)
    then [] :: split sep (drop (length sep) (c :: s))
    else match split sep s with
         | x :: tl => (c :: x) :: tl
         | [] => []
         end.
Proof.
  intros Hsep. unfold split at 1. rewrite split_go_step by assumption.
  destruct (startswith sep (c :: s)); [reflexivity|].
  rewrite split_go_cur by assumption. reflexivity.
Qed.

(** Induction on a text where the step may drop a whole separator. *)
Lemma str_length_ind (P : str -> Prop) :
  (forall s, (forall t, length t < length s -> P t) -> P s) -> forall s, P s.
Proof.
  intros H s. remember (length s) as n eqn:E. revert s E.
  induction n as [n IH] using lt_wf_ind. intros s ->.
  apply H. intros t Ht. exact (IH _ Ht t eq_refl).
Qed.

(** [split] never returns the empty list, so [split(...)[0]] exists. *)
Lemma split_not_nil (sep s : str) : sep <> [] -> split sep s <> [].
Proof.
  intros Hsep. induction s as [|c s IH]; [discriminate|].
  rewrite split_cons by assumption.
  destruct (startswith sep (c :: s)); [discriminate|].
  destruct (split sep s); [congruence | discriminate].
Qed.

(** Without an occurrence of the separator the text is the only field. *)
Lemma split_absent (sep s : str) :
  sep <> [] -> contains sep s = false -> split sep s = [s].
Proof.
  intros Hsep. induction s as [|c s IH]; intros H; [reflexivity|].
  rewrite contains_cons in H. apply orb_false_elim in H as [H1 H2].
  rewrite split_cons, H1 by assumption. rewrite (IH H2). reflexivity.
Qed.

(** With an occurrence there are at least two fields, so
    [split(...)[1]] exists. *)
Lemma split_present (sep s : str) :
  sep <> [] -> contains sep s = true ->
  exists a b tl, split sep s = a :: b :: tl.
Proof.
  intros Hsep. induction s as [|c s IH]; intros H.
  - rewrite contains_nil_false in H by assumption. discriminate.
  - rewrite contains_cons in H. rewrite split_cons by assumption.
    destruct (startswith sep (c :: s)) eqn:E.
    + pose proof (split_not_nil sep (drop (length sep) (c :: s)) Hsep) as Hn.
      destruct (split sep (drop (length sep) (c :: s))) as [|b tl]; [congruence|].
      exists [], b, tl. reflexivity.
    + simpl in H. destruct (IH H) as (a & b & tl & ->).
      exists (c :: a), b, tl. reflexivity.
Qed.

Lemma join_cons2 (sep x y : str) (tl : list str) :
  join sep (x :: y :: tl) = x ++ sep ++ join sep (y :: tl).
Proof. reflexivity. Qed.

(** Joining the fields with the separator gives the text back. *)
Lemma join_split (sep s : str) : sep <> [] -> join sep (split sep s) = s.
Proof.
  intros Hsep. induction s as [s IH] using str_length_ind.
  destruct s as [|c s]; [reflexivity|].
  rewrite split_cons by assumption.
  destruct (startswith sep (c :: s)) eqn:E.
  - pose proof (split_not_nil sep (drop (length sep) (c :: s)) Hsep) as Hn.
    pose proof (IH _ (drop_length_lt sep c s Hsep)) as IHd.
    destruct (split sep (drop (length sep) (c :: s))) as [|b tl]; [congruence|].
    rewrite join_cons2, IHd. simpl app at 1.
    symmetry. apply startswith_split, E.
  - pose proof (IH s ltac:(simpl; lia)) as IHs.
    pose proof (split_not_nil sep s Hsep) as Hn.
    destruct (split sep s) as [|x [|y tl]]; [congruence| |].
    + simpl in *. congruence.
    + rewrite join_cons2 in *. rewrite <- app_comm_cons. f_equal. exact IHs.
Qed.

(** The first field holds no occurrence of the separator. *)
Lemma split_first_clean (sep s x : str) (tl : list str) :
  sep <> [] -> split sep s = x :: tl -> contains sep x = false.
Proof.
  intros Hsep. revert x tl. induction s as [|c s IH]; intros x tl H.
  - inversion H. apply contains_nil_false, Hsep.
  - rewrite split_cons in H by assumption.
    destruct (startswith sep (c :: s)) eqn:E.
    + inversion H. apply contains_nil_false, Hsep.
    + pose proof (join_split sep s Hsep) as Hj.
      destruct (split sep s) as [|x' tl'] eqn:Es; [discriminate|].
      inversion H; subst x tl. rewrite contains_cons.
      rewrite (IH x' tl' eq_refl), orb_false_r.
      destruct (startswith sep (c :: x')) eqn:E'; [|reflexivity].
      exfalso. rewrite <- Hj in E.
      assert (startswith sep (c :: join sep (x' :: tl')) = true) as Hs;
        [|rewrite Hs in E; discriminate].
      destruct tl' as [|y tl'].
      * exact E'.
      * rewrite join_cons2. apply (startswith_weaken sep (c :: x')), E'.
Qed.

(** For a separator of one character: it does not occur in the first
    field. *)
Lemma contains_char (c : ascii) (s : str) :
  contains [c] s = false -> ~ In c s.
Proof.
  induction s as [|d s IH]; intros H; [intros []|].
  rewrite contains_cons in H. apply orb_false_elim in H as [H1 H2].
  simpl in H1. rewrite andb_true_r in H1.
  intros [Hd | Hin]; [|exact (IH H2 Hin)].
  subst d. rewrite Ascii.eqb_refl in H1. discriminate.
Qed.

End PyStrFacts.

(** * Video-identifier extraction *)

Module VideoSpec.
Import PyStr PyStrFacts Video.

Example split_fields :
  split (py "?") (py "a?b?c") = [py "a"; py "b"; py "c"]
  /\ split (py "XX") (py "aXXXb") = [py "a"; py "Xb"]
  /\ split (py "?") [] = [[]]
  /\ split (py "?") (py "?") = [[]; []]
  /\ split (py "youtu.be/") (py "youtu.be/abcyoutu.be/def") = [[]; py "abc"; py "def"].
Proof. repeat split; reflexivity. Qed.

(** The text that follows the first [marker], up to the next [d]: the
    field [split(marker)[1].split(d)[0]] and where it sits in the URL. *)
Lemma field_after (marker : str) (d : ascii) (url : str) :
  marker <> [] -> contains marker url = true ->
  exists pre a tl ident tl',
    split marker url = pre :: a :: tl
    /\ split [d] a = ident :: tl'
    /\ contains marker pre = false
    /\ ~ In d ident
    /\ exists rest, url = pre ++ marker ++ ident ++ rest
         /\ (rest = [] \/ startswith [d] rest = true \/ startswith marker rest = true).
Proof.
  intros Hm Hc.
  destruct (split_present marker url Hm Hc) as (pre & a & tl & Hs).
  assert (Hd : [d] <> []) by discriminate.
  pose proof (split_not_nil [d] a Hd) as Hn.
  destruct (split [d] a) as [|ident tl'] eqn:Ha; [congruence|].
  exists pre, a, tl, ident, tl'.
  split; [exact Hs|]. split; [exact Ha|].
  split; [exact (split_first_clean marker url pre _ Hm Hs)|].
  split; [apply contains_char; exact (split_first_clean [d] a ident tl' Hd Ha)|].
  pose proof (join_split marker url Hm) as Hu. rewrite Hs, join_cons2 in Hu.
  pose proof (join_split [d] a Hd) as Hja. rewrite Ha in Hja.
  destruct tl' as [|y tl'].
  - simpl in Hja. subst ident.
    destruct tl as [|z tl].
    + exists []. split; [|left; reflexivity].
      rewrite app_nil_r. symmetry. exact Hu.
    + rewrite join_cons2 in Hu. exists (marker ++ join marker (z :: tl)).
      split; [symmetry; exact Hu|].
      right; right. apply startswith_app.
  - rewrite join_cons2 in Hja.
    exists (([d] ++ join [d] (y :: tl')) ++
            match tl with [] => [] | _ => marker ++ join marker tl end).
    split; [|right; left; simpl; rewrite Ascii.eqb_refl; reflexivity].
    rewrite <- Hu. f_equal. f_equal. rewrite app_assoc, Hja.
    destruct tl; [rewrite app_nil_r|]; reflexivity.
Qed.


Lemma index_second {A} (x y : A) (l : list A) : index (x :: y :: l) 1 = Returns y.
Proof. reflexivity. Qed.

Lemma short_marker : py "youtu.be/" <> [].
Proof. discriminate. Qed.

Lemma watch_marker : py "watch?v=" <> [].
Proof. discriminate. Qed.

(** The short-form branch. *)
Lemma extract_short (url : str) :
  contains (py "youtu.be/") url = true ->
  extract_video_id url =
    Returns (Some (hd [] (split (py "?") (nth 1 (split (py "youtu.be/") url) [])))).
Proof.
  intros Hc. unfold extract_video_id. rewrite Hc.
  destruct (field_after _ "?"%char url short_marker Hc)
    as (pre & a & tl & ident & tl' & Hs & Ha & _).
  rewrite Hs, index_second. simpl nth.
  change (py "?") with ["?"%char]. cbn [mbind outcome_bind obind].
  rewrite Ha. reflexivity.
Qed.

(** The watch branch. *)
Lemma extract_watch (url : str) :
  contains (py "youtu.be/") url = false ->
  contains (py "watch?v=") url = true ->
  extract_video_id url =
    Returns (Some (hd [] (split (py "&") (nth 1 (split (py "watch?v=") url) [])))).
Proof.
  intros Hn Hc. unfold extract_video_id. rewrite Hn, Hc.
  destruct (field_after _ "&"%char url watch_marker Hc)
    as (pre & a & tl & ident & tl' & Hs & Ha & _).
  rewrite Hs, index_second. simpl nth.
  change (py "&") with ["&"%char]. cbn [mbind outcome_bind obind].
  rewrite Ha. reflexivity.
Qed.

Lemma extract_neither (url : str) :
  contains (py "youtu.be/") url = false ->
  contains (py "watch?v=") url = false ->
  extract_video_id url = Returns None.
Proof. intros H1 H2. unfold extract_video_id. rewrite H1, H2. reflexivity. Qed.

Lemma hd_field_sits (marker : str) (d : ascii) (url : str) :
  marker <> [] -> contains marker url = true ->
  sits_after marker d url (hd [] (split [d] (nth 1 (split marker url) []))).
Proof.
  intros Hm Hc.
  destruct (field_after marker d url Hm Hc)
    as (pre & a & tl & ident & tl' & Hs & Ha & Hp & Hi & rest & Hu & Hr).
  rewrite Hs. simpl nth. rewrite Ha. simpl hd.
  split; [exact Hi|]. exists pre, rest. auto.
Qed.

(** C9. Video-identifier extraction returns on every string and never
    raises; it returns [None] exactly when the string contains neither
    ["youtu.be/"] nor ["watch?v="]; and whenever ["youtu.be/"] occurs, also
    next to ["watch?v="], the result is the one of the short-form rule. *)
Theorem extract_video_id_total (url : str) :
  exists r,
    extract_video_id url = Returns r
    /\ (r = None <->
        contains (py "youtu.be/") url = false /\ contains (py "watch?v=") url = false)
    /\ (contains (py "youtu.be/") url = true ->
        r = Some (hd [] (split (py "?") (nth 1 (split (py "youtu.be/") url) [])))).
Proof.
  destruct (contains (py "youtu.be/") url) eqn:Hs.
  - eexists. split; [apply extract_short, Hs|]. split.
    + split; [discriminate | intros [? _]; discriminate].
    + reflexivity.
  - destruct (contains (py "watch?v=") url) eqn:Hw.
    + eexists. split; [apply extract_watch; assumption|]. split.
      * split; [discriminate | intros [_ ?]; discriminate].
      * discriminate.
    + exists None. split; [apply extract_neither; assumption|]. split.
      * split; auto.
      * discriminate.
Qed.

(** Both markers present: the short-form rule decides. *)
Example both_markers :
  extract_video_id (py "https://youtu.be/AAA?next=watch?v=BBB&t=1")
  = Returns (Some (py "AAA")).
Proof. reflexivity. Qed.

(** C3, as stated, fails: in the short form an [&] does not end the
    identifier, and in the watch form a [?] does not. *)
Lemma extract_video_id_delimiter_counterexample :
  extract_video_id (py "https://youtu.be/ABC123&t=5") = Returns (Some (py "ABC123&t=5"))
  /\ extract_video_id (py "https://youtube.com/watch?v=XYZ789?t=5")
     = Returns (Some (py "XYZ789?t=5"))
  /\ ~ (forall url ident,
          extract_video_id url = Returns (Some ident) ->
          ~ In "&"%char ident /\ ~ In "?"%char ident).
Proof.
  split; [reflexivity|]. split; [reflexivity|].
  intros H.
  destruct (H (py "https://youtu.be/ABC123&t=5") (py "ABC123&t=5") eq_refl) as [Hamp _].
  apply Hamp. vm_compute. tauto.
Qed.

(** C3, amended. The two example URLs yield [ABC123] and [XYZ789]; a URL
    with neither marker yields no identifier; in the short form the
    identifier is the text after the first ["youtu.be/"] up to the next
    [?], in the watch form the text after the first ["watch?v="] up to
    the next [&] (or, in both, up to the next marker or the end). *)
Theorem extract_video_id_shapes :
  extract_video_id (py "https://youtu.be/ABC123?t=5") = Returns (Some (py "ABC123"))
  /\ extract_video_id (py "https://youtube.com/watch?v=XYZ789&list=PL1")
     = Returns (Some (py "XYZ789"))
  /\ (forall url,
        contains (py "youtu.be/") url = false ->
        contains (py "watch?v=") url = false ->
        extract_video_id url = Returns None)
  /\ (forall url,
        contains (py "youtu.be/") url = true ->
        exists ident,
          extract_video_id url = Returns (Some ident)
          /\ sits_after (py "youtu.be/") "?"%char url ident)
  /\ (forall url,
        contains (py "youtu.be/") url = false ->
        contains (py "watch?v=") url = true ->
        exists ident,
          extract_video_id url = Returns (Some ident)
          /\ sits_after (py "watch?v=") "&"%char url ident).
Proof.
  split; [reflexivity|]. split; [reflexivity|].
  split; [exact extract_neither|]. split.
  - intros url Hc. eexists. split; [apply extract_short, Hc|].
    apply (hd_field_sits _ "?"%char url short_marker Hc).
  - intros url Hn Hc. eexists. split; [apply extract_watch; assumption|].
    apply (hd_field_sits _ "&"%char url watch_marker Hc).
Qed.

End VideoSpec.

(** * The PDF loader and its temporary file *)

Module PdfSpec.
Import PyStr Pdf Samples.

Section Paths.

Variable temp_name : gmap str str -> str.
Variable parse_pdf : str -> outcome (list Document).

(** A successful parse: the pages are returned and the temporary file is
    gone. *)
Lemma load_pdf_success (uploaded : str) (pages : list Document) (w : world) :
  parse_pdf uploaded = Returns pages ->
  load_pdf_documents temp_name parse_pdf uploaded w
  = (mkWorld (delete (temp_name (files w)) (files w)) (page w), Returns (Some pages)).
Proof.
  intros Hp. unfold load_pdf_documents, try_except.
  unfold mbind, prog_bind, pbind, write_temp, loader_load, unlink.
  cbn [files page]. rewrite lookup_insert_eq, Hp.
  cbn [files page]. rewrite lookup_insert_eq. cbn [files page].
  rewrite delete_insert_eq. reflexivity.
Qed.

(** A failed parse: the error is shown, nothing is returned, and the
    temporary file is still there with the uploaded bytes. *)
Lemma load_pdf_failure (uploaded e : str) (w : world) :
  parse_pdf uploaded = Raises e ->
  load_pdf_documents temp_name parse_pdf uploaded w
  = (mkWorld (<[temp_name (files w) := uploaded]> (files w))
             (page w ++ [StError (py "Error loading PDF: " ++ e)]),
     Returns None).
Proof.
  intros Hp. unfold load_pdf_documents, try_except.
  unfold mbind, prog_bind, pbind, write_temp, loader_load, unlink.
  cbn [files page]. rewrite lookup_insert_eq, Hp.
  reflexivity.
Qed.

End Paths.

(** C4 fails on the code. An upload the parser rejects, on an empty disk:
    the loader reports the error and returns nothing, and the temporary
    file it wrote is still on disk when it returns. (After a successful
    parse the file is deleted, [load_pdf_success].) *)
Theorem load_pdf_documents_leaves_temp_file :
  let '(w, r) :=
    load_pdf_documents (fun _ => tmp_path) header_parser (py "not a pdf")
      (mkWorld ∅ []) in
  r = Returns None
  /\ page w = [StError (py "Error loading PDF: invalid pdf header")]
  /\ files w !! tmp_path = Some (py "not a pdf").
Proof.
  rewrite (load_pdf_failure _ header_parser _ (py "invalid pdf header")) by reflexivity.
  cbn [files page]. rewrite lookup_insert_eq. repeat split; reflexivity.
Qed.

End PdfSpec.

(** * The YouTube loader *)

Module YouTubeSpec.
Import PyStr PyStrFacts Video YouTube Samples.

Lemma contains_later (sub : str) (c : ascii) (s : str) :
  contains sub s = true -> contains sub (c :: s) = true.
Proof. intros H. rewrite contains_cons, H. apply orb_true_r. Qed.

(** The fixed text around the two excerpts. *)
Lemma no_captions_head_end :
  exists before, no_captions_head = before ++ py "Primary: "
    /\ contains (py "Could not fetch YouTube transcript") before = true.
Proof.
  exists (take (length no_captions_head - 9) no_captions_head).
  split; vm_compute; reflexivity.
Qed.

Lemma no_captions_tail_start :
  exists after, no_captions_tail = py "..." ++ after.
Proof. exists (drop 3 no_captions_tail). vm_compute. reflexivity. Qed.

Lemma contains_weaken (sub s t u : str) :
  contains sub s = true -> contains sub (t ++ s ++ u) = true.
Proof.
  intros H. induction t as [|c t IH].
  - simpl app. induction s as [|d s IHs].
    + destruct sub; [|discriminate]. destruct u; reflexivity.
    + rewrite contains_cons in H. rewrite <- app_comm_cons, contains_cons.
      destruct (startswith sub (d :: s)) eqn:E.
      * pose proof (startswith_weaken sub (d :: s) u E) as Hw.
        rewrite <- app_comm_cons in Hw. rewrite Hw. reflexivity.
      * simpl in H. rewrite (IHs H). apply orb_true_r.
  - rewrite <- app_comm_cons. apply contains_later, IH.
Qed.

(** The message holds both excerpts, and its length is that of its fixed
    text plus those of the excerpts. *)
Lemma no_captions_html_excerpts (e fallback_error : str) :
  contains (py "Primary: " ++ upto 100 e ++ py "... | Fallback: "
            ++ upto 100 fallback_error ++ py "...") (no_captions_html e fallback_error) = true
  /\ contains (py "Could not fetch YouTube transcript") (no_captions_html e fallback_error) = true
  /\ length (no_captions_html e fallback_error)
     = length (no_captions_html [] []) + length (upto 100 e) + length (upto 100 fallback_error).
Proof.
  unfold no_captions_html.
  destruct no_captions_head_end as (before & Hh & Hb).
  destruct no_captions_tail_start as (after & Ht).
  split; [|split].
  - rewrite Hh, Ht.
    replace ((before ++ py "Primary: ") ++ upto 100 e ++ py "... | Fallback: "
             ++ upto 100 fallback_error ++ py "..." ++ after)
      with (before ++ (py "Primary: " ++ upto 100 e ++ py "... | Fallback: "
                       ++ upto 100 fallback_error ++ py "...") ++ after)
      by (rewrite <- !app_assoc; reflexivity).
    apply contains_app.
  - rewrite Hh. rewrite <- app_assoc.
    apply (contains_weaken _ before []), Hb.
  - rewrite !length_app. unfold upto at 3 4. simpl (length (take _ [])). lia.
Qed.

Lemma upto_length (n : nat) (s : str) : length (upto n s) <= n.
Proof. unfold upto. rewrite length_take. lia. Qed.

Section Loader.

Variable fetch : str -> outcome FetchedTranscript.
Variable youtube_loader_load : str -> outcome (list Document).

(** C5. With the transcript library present and a URL that yields an
    identifier: when the transcript fetch raises [e] and the fallback
    loader raises [fallback_error], the loader writes one message to the
    page, the no-captions report, which holds the first 100 characters of
    [e] and the first 100 characters of [fallback_error] and nothing more
    of either, and it returns no documents. *)
Theorem load_youtube_both_fail
    (youtube_url video_id e fallback_error : str) (page : list ui_event) :
  extract_video_id youtube_url = Returns (Some video_id) ->
  video_id <> [] ->
  fetch video_id = Raises e ->
  youtube_loader_load youtube_url = Raises fallback_error ->
  exists html,
    load_youtube_documents true fetch youtube_loader_load youtube_url page
    = (page ++ [StMarkdown html], Returns None)
    /\ contains (py "Could not fetch YouTube transcript") html = true
    /\ contains (py "Primary: " ++ take 100 e ++ py "... | Fallback: "
                 ++ take 100 fallback_error ++ py "...") html = true
    /\ length html <= length (no_captions_html [] []) + 200.
Proof.
  intros Hid Hne Hf Hl.
  exists (no_captions_html e fallback_error).
  destruct (no_captions_html_excerpts e fallback_error) as (Hc & Ht & Hlen).
  split; [|split; [exact Ht|split; [exact Hc|]]].
  - unfold load_youtube_documents, try_except, lift, st_markdown.
    unfold mbind, prog_bind, pbind. cbn [negb]. rewrite Hid.
    destruct video_id as [|c v]; [congruence|].
    rewrite Hf, Hl. reflexivity.
  - rewrite Hlen.
    pose proof (upto_length 100 e). pose proof (upto_length 100 fallback_error). lia.
Qed.

End Loader.

(** An instance: a short-form URL, a transcript service and a fallback
    loader that both fail. *)
Lemma load_youtube_both_fail_witness :
  exists html,
    load_youtube_documents true failing_fetch failing_loader
      (py "https://youtu.be/ABC123?t=5") []
    = ([] ++ [StMarkdown html], Returns None)
    /\ contains (py "Could not fetch YouTube transcript") html = true
    /\ contains (py "Primary: "
                 ++ take 100 (py "Could not retrieve a transcript for the video ABC123")
                 ++ py "... | Fallback: "
                 ++ take 100 (py "No module named 'pytube'") ++ py "...") html = true
    /\ length html <= length (no_captions_html [] []) + 200.
Proof.
  apply (load_youtube_both_fail failing_fetch failing_loader
           (py "https://youtu.be/ABC123?t=5") (py "ABC123")).
  - reflexivity.
  - discriminate.
  - reflexivity.
  - reflexivity.
Defined.

End YouTubeSpec.

(** * The Chunker: round trip *)

Module ChunkerSpec.
Import Chunker.

Section Windows.

Variables (maxSize overlap : nat) (sep : ascii).
Hypothesis overlap_lt : overlap < maxSize.

Lemma last_boundary_past (n i : nat) (s : str) (best : option nat) (k : nat) :
  (forall b, best = Some b -> overlap < b) ->
  last_boundary overlap sep n i s best = Some k -> overlap < k.
Proof.
  revert i s best. induction n as [|n IH]; intros i s best Hb H.
  - simpl in H. exact (Hb _ H).
  - destruct s as [|c s]; [exact (Hb _ H)|].
    simpl in H. eapply IH; [|exact H].
    intros b. destruct (Ascii.eqb c sep && (overlap <? S i)) eqn:E.
    + intros [= <-]. apply andb_prop in E as [_ E]. apply Nat.ltb_lt, E.
    + apply Hb.
Qed.

Lemma next_boundary_past (i : nat) (s : str) (k : nat) :
  next_boundary sep i s = Some k -> i < k.
Proof.
  revert i. induction s as [|c s IH]; intros i H; [discriminate|].
  simpl in H. destruct (Ascii.eqb c sep).
  - injection H as <-. lia.
  - apply IH in H. lia.
Qed.

(** A window always reaches past the characters it repeats. *)
Lemma cut_past_overlap (s : str) :
  maxSize < length s -> overlap < cut maxSize overlap sep s.
Proof.
  intros Hlen. unfold cut.
  destruct (last_boundary overlap sep maxSize 0 s None) as [k|] eqn:E.
  - eapply last_boundary_past; [|exact E]. discriminate.
  - destruct (next_boundary sep maxSize (drop maxSize s)) as [k|] eqn:E'.
    + apply next_boundary_past in E'. lia.
    + lia.
Qed.

(** What the windows after the first add to it: the text from the
    overlap on. *)
Lemma windows_tail (fuel : nat) (s : str) :
  overlap <= length s ->
  concat (map (drop overlap) (windows maxSize overlap sep fuel s)) = drop overlap s.
Proof.
  revert s. induction fuel as [|fuel IH]; intros s Hs.
  - simpl. apply app_nil_r.
  - simpl. destruct (length s <=? maxSize) eqn:E; [simpl; apply app_nil_r|].
    apply Nat.leb_gt in E.
    pose proof (cut_past_overlap s E) as Hk.
    destruct (cut maxSize overlap sep s <? length s) eqn:E2; [|simpl; apply app_nil_r].
    apply Nat.ltb_lt in E2.
    set (k := cut maxSize overlap sep s) in *.
    simpl. rewrite IH by (rewrite length_drop; lia).
    rewrite drop_drop. replace (k - overlap + overlap) with k by lia.
    rewrite <- (take_drop k s) at 3.
    rewrite drop_app_le by (rewrite length_take; lia).
    reflexivity.
Qed.

(** Two windows within the bound, put together without the overlap, hold
    at most [2 * maxSize - overlap] characters. *)
Lemma two_windows_reach (ws : list str) :
  Forall (fun w => length w <= maxSize) ws ->
  length ws <= 2 ->
  length (reconstruct overlap ws) <= 2 * maxSize.
Proof.
  intros Hb Hn. destruct ws as [|w1 [|w2 [|w3 ws]]]; simpl in *; try lia.
  - inversion Hb; subst. rewrite length_app. simpl. lia.
  - inversion Hb as [|? ? H1 Hb']; subst. inversion Hb' as [|? ? H2 _]; subst.
    rewrite !length_app, length_drop. simpl. lia.
Qed.

Lemma reconstruct_windows (fuel : nat) (s : str) :
  reconstruct overlap (windows maxSize overlap sep fuel s) = s.
Proof.
  destruct fuel as [|fuel]; [simpl; apply app_nil_r|].
  simpl. destruct (length s <=? maxSize) eqn:E; [simpl; apply app_nil_r|].
  apply Nat.leb_gt in E.
  pose proof (cut_past_overlap s E) as Hk.
  destruct (cut maxSize overlap sep s <? length s) eqn:E2; [|simpl; apply app_nil_r].
  apply Nat.ltb_lt in E2.
  set (k := cut maxSize overlap sep s) in *.
  unfold reconstruct. rewrite windows_tail by (rewrite length_drop; lia).
  rewrite drop_drop. replace (k - overlap + overlap) with k by lia.
  apply take_drop.
Qed.

(** Consecutive windows share exactly [overlap] characters: the end of
    one is the start of the next. *)
Lemma windows_overlap (fuel : nat) (s w1 w2 : str) (rest : list str) :
  windows maxSize overlap sep fuel s = w1 :: w2 :: rest ->
  drop (length w1 - overlap) w1 = take overlap w2.
Proof.
  destruct fuel as [|fuel]; [discriminate|].
  simpl. destruct (length s <=? maxSize) eqn:E; [discriminate|].
  apply Nat.leb_gt in E.
  pose proof (cut_past_overlap s E) as Hk.
  destruct (cut maxSize overlap sep s <? length s) eqn:E2; [|discriminate].
  apply Nat.ltb_lt in E2.
  set (k := cut maxSize overlap sep s) in *.
  intros [= <- Hw].
  assert (Hw2 : exists t, drop (k - overlap) s = w2 ++ t /\
                          (overlap <= length w2)).
  { destruct fuel as [|fuel].
    - simpl in Hw. injection Hw as <- _. exists []. rewrite app_nil_r.
      split; [reflexivity|]. rewrite length_drop. lia.
    - simpl in Hw.
      destruct (length (drop (k - overlap) s) <=? maxSize) eqn:E3.
      + injection Hw as <- _. exists []. rewrite app_nil_r.
        split; [reflexivity|]. rewrite length_drop. lia.
      + apply Nat.leb_gt in E3.
        pose proof (cut_past_overlap _ E3) as Hk2.
        destruct (cut maxSize overlap sep (drop (k - overlap) s)
                  <? length (drop (k - overlap) s)) eqn:E4.
        * apply Nat.ltb_lt in E4. injection Hw as <- _.
          eexists. split; [symmetry; apply take_drop|].
          rewrite length_take. lia.
        * injection Hw as <- _. exists []. rewrite app_nil_r.
          split; [reflexivity|]. rewrite length_drop. lia. }
  destruct Hw2 as (t & Ht & Hl).
  rewrite length_take, Nat.min_l by lia.
  rewrite <- (take_app_le w2 t overlap) by lia. rewrite <- Ht.
  rewrite take_drop_commute. replace (k - overlap + overlap) with k by lia.
  reflexivity.
Qed.

End Windows.

(** C7. With [maxSize = 4000], [overlap = 200] and the newline as split
    boundary, concatenating the windows of a text in order, each window
    after the first without its first 200 characters (the duplicated
    overlap), gives the text back; this holds for every text, so for all
    those that split without an oversized window. *)
Theorem chunker_round_trip (text : str) :
  reconstruct 200 (split_text 4000 200 newline text) = text.
Proof.
  unfold split_text. apply reconstruct_windows. lia.
Qed.

End ChunkerSpec.

(** * The summarization pipeline *)

Module PipelineSpec.
Import Catalog Pipeline Samples.

Lemma pbind_run {S A B} (m : prog S A) (k : A -> prog S B) (s : S) :
  (m ≫= k) s =
    match m s with
    | (s', Returns a) => k a s'
    | (s', Raises e) => (s', Raises e)
    end.
Proof. reflexivity. Qed.

Section Calls.

Variable complete : ChatGroq -> list Document -> outcome str.
Variable text_splitter : nat -> nat -> str -> list Document -> list Document.

(** The single-call path: one call on the documents as given; when the
    call raises, the error goes to the page and nothing is returned. *)
Lemma single_call (documents : list Document) (llm : ChatGroq) (tr : list event) :
  is_large documents = false ->
  summarize_documents complete text_splitter documents llm tr =
    match complete llm documents with
    | Returns s => (tr ++ [EInvoke llm documents], Returns (Some s))
    | Raises e =>
        ((tr ++ [EInvoke llm documents])
           ++ [EPage (StError (py "Error during summarization: " ++ e))],
         Returns None)
    end.
Proof.
  intros Hl. unfold summarize_documents, try_except. rewrite Hl.
  rewrite pbind_run. unfold chain_invoke.
  destruct (complete llm documents); reflexivity.
Qed.

Lemma several_not_large (documents : list Document) :
  1 < length documents -> is_large documents = false.
Proof.
  destruct documents as [|d [|d' rest]]; simpl; intros H; try lia; reflexivity.
Qed.

(** C2. For more than one document, whatever their lengths, the pipeline
    makes exactly one completion call, on the documents as given, and no
    call to the splitter: its trace is that one call, followed only by the
    error message when the call raises. *)
Theorem several_documents_single_call
    (documents : list Document) (llm : ChatGroq) :
  1 < length documents ->
  let '(tr, r) := summarize_documents complete text_splitter documents llm [] in
  invocations tr = [documents]
  /\ filter (fun e => is_split e = true) tr = []
  /\ (exists page, tr = EInvoke llm documents :: map EPage page)
  /\ (forall s, complete llm documents = Returns s -> r = Returns (Some s)).
Proof.
  intros Hn. rewrite (single_call _ _ _ (several_not_large _ Hn)).
  destruct (complete llm documents) as [s|e].
  - repeat split; try reflexivity.
    + exists []. reflexivity.
    + intros s' [= <-]. reflexivity.
  - repeat split; try reflexivity.
    + exists [StError (py "Error during summarization: " ++ e)]. reflexivity.
    + intros s' [=].
Qed.

End Calls.

Section Stub.

Variable f : list Document -> str.
Variable text_splitter : nat -> nat -> str -> list Document -> list Document.

(** The loop over the chunks with a stub that always answers. *)
Lemma summarize_chunks_stub
    (llm : ChatGroq) (chunks acc : list Document) (tr : list event) :
  summarize_chunks (stub f) llm chunks acc tr =
    (tr ++ map (fun c => EInvoke llm [c]) chunks,
     Returns (acc ++ map (intermediate f) chunks)).
Proof.
  revert acc tr. induction chunks as [|c chunks IH]; intros acc tr.
  - simpl. rewrite !app_nil_r. reflexivity.
  - simpl summarize_chunks. rewrite pbind_run. unfold chain_invoke, stub at 1.
    rewrite IH. simpl. rewrite <- !app_assoc. reflexivity.
Qed.

Lemma invocations_app (tr1 tr2 : list event) :
  invocations (tr1 ++ tr2) = invocations tr1 ++ invocations tr2.
Proof. unfold invocations. apply omap_app. Qed.

Lemma invocations_chunks (llm : ChatGroq) (chunks : list Document) :
  invocations (map (fun c => EInvoke llm [c]) chunks) = map (fun c => [c]) chunks.
Proof.
  induction chunks as [|c chunks IH]; [reflexivity|].
  simpl. unfold invocations in *. simpl. rewrite IH. reflexivity.
Qed.

(** C1, amended. A single document longer than 4000 characters that the
    chunker (called with 4000, 200 and the newline) splits into more than
    one chunk: with a completion stub, the pipeline calls the stub once
    per chunk, front to back, and then once more on the intermediate
    summaries in that same order, the number of chunks plus one calls in
    all (3 for 2 chunks); the result is the answer to the last call. *)
Theorem map_reduce_calls (doc : Document) (llm : ChatGroq) (chunks : list Document) :
  4000 < length (page_content doc) ->
  text_splitter 4000 200 nl [doc] = chunks ->
  1 < length chunks ->
  let '(tr, r) := summarize_documents (stub f) text_splitter [doc] llm [] in
  tr = ESplit [doc] :: map (fun c => EInvoke llm [c]) chunks
         ++ [EInvoke llm (map (intermediate f) chunks)]
  /\ invocations tr = map (fun c => [c]) chunks ++ [map (intermediate f) chunks]
  /\ length (invocations tr) = length chunks + 1
  /\ r = Returns (Some (f (map (intermediate f) chunks))).
Proof.
  intros Hlen Hsplit Hmany.
  unfold summarize_documents, try_except.
  assert (Hl : is_large [doc] = true) by (apply Nat.ltb_lt, Hlen).
  rewrite Hl. rewrite pbind_run. unfold split_documents at 1.
  rewrite Hsplit.
  assert (Hm : (1 <? length chunks) = true) by (apply Nat.ltb_lt, Hmany).
  rewrite Hm. rewrite pbind_run, summarize_chunks_stub.
  rewrite pbind_run. unfold chain_invoke, stub. simpl app.
  split; [reflexivity|].
  assert (Hi : invocations
                 (ESplit [doc] :: map (fun c => EInvoke llm [c]) chunks
                    ++ [EInvoke llm (map (intermediate f) chunks)])
               = map (fun c => [c]) chunks ++ [map (intermediate f) chunks]).
  { change (ESplit [doc] :: ?t) with ([ESplit [doc]] ++ t).
    rewrite !invocations_app, invocations_chunks. reflexivity. }
  rewrite Hi. split; [reflexivity|]. split; [|reflexivity].
  rewrite length_app, length_map. reflexivity.
Qed.

End Stub.

(** C1, as stated, fails: a document of 9000 characters is not always
    two chunks. Without a newline it stays whole and the pipeline makes
    one call, on the document itself; with a newline every 100 characters
    it is three chunks and four calls. *)
Lemma nine_thousand_not_three_calls :
  length flat_text = 9 * 1000
  /\ calls_on flat_text = [[mkDocument flat_text ∅]]
  /\ length lines_text = 9 * 1000
  /\ length (calls_on lines_text) = 4
  /\ ~ (forall text, length text = 9 * 1000 -> length (calls_on text) = 3).
Proof.
  assert (H1 : length flat_text = 9 * 1000) by (vm_compute; reflexivity).
  assert (H2 : calls_on flat_text = [[mkDocument flat_text ∅]])
    by (vm_compute; reflexivity).
  split; [exact H1|]. split; [exact H2|].
  split; [vm_compute; reflexivity|]. split; [vm_compute; reflexivity|].
  intros H. specialize (H flat_text H1). rewrite H2 in H. discriminate H.
Qed.

(** An instance: the two-part document, the echo stub and the Chunker. *)
Lemma map_reduce_calls_witness :
  let '(tr, r) :=
    summarize_documents (stub echo) Chunker.text_splitter
      [mkDocument two_part_text ∅] llm0 [] in
  let chunks := Chunker.text_splitter 4000 200 nl [mkDocument two_part_text ∅] in
  tr = ESplit [mkDocument two_part_text ∅] :: map (fun c => EInvoke llm0 [c]) chunks
         ++ [EInvoke llm0 (map (intermediate echo) chunks)]
  /\ invocations tr = map (fun c => [c]) chunks ++ [map (intermediate echo) chunks]
  /\ length (invocations tr) = length chunks + 1
  /\ r = Returns (Some (echo (map (intermediate echo) chunks))).
Proof.
  apply (map_reduce_calls echo Chunker.text_splitter (mkDocument two_part_text ∅) llm0).
  - apply Nat.ltb_lt. vm_compute. reflexivity.
  - reflexivity.
  - apply Nat.ltb_lt. vm_compute. reflexivity.
Defined.

(** The two-part document is 9000 characters long and makes two chunks,
    so three calls. *)
Example two_part_three_calls :
  length two_part_text = 9 * 1000 /\ length (calls_on two_part_text) = 3.
Proof. vm_compute. split; reflexivity. Qed.

(** An instance: three short documents and the echo stub. *)
Lemma several_documents_single_call_witness :
  let '(tr, r) :=
    summarize_documents (stub echo) Chunker.text_splitter short_docs llm0 [] in
  invocations tr = [short_docs]
  /\ filter (fun e => is_split e = true) tr = []
  /\ (exists page, tr = EInvoke llm0 short_docs :: map EPage page)
  /\ (forall s, stub echo llm0 short_docs = Returns s -> r = Returns (Some s)).
Proof.
  apply (several_documents_single_call (stub echo) Chunker.text_splitter short_docs llm0).
  simpl. lia.
Defined.

(** Two documents of 9000 characters each: still one call, no splitting. *)
Example large_documents_single_call :
  calls_on flat_text = [[mkDocument flat_text ∅]]
  /\ invocations
       (summarize_documents (stub echo) Chunker.text_splitter
          [mkDocument lines_text ∅; mkDocument lines_text ∅] llm0 []).1
     = [[mkDocument lines_text ∅; mkDocument lines_text ∅]].
Proof. vm_compute. split; reflexivity. Qed.

(** ** The configuration of the calls *)

Section Keeps.

Variable complete : ChatGroq -> list Document -> outcome str.
Variable text_splitter : nat -> nat -> str -> list Document -> list Document.
Variable llm : ChatGroq.

Lemma keeps_ret {A} (a : A) : keeps llm (mret a).
Proof. intros tr H. exact H. Qed.

Lemma keeps_bind {A B} (m : prog (list event) A) (k : A -> prog (list event) B) :
  keeps llm m -> (forall a, keeps llm (k a)) -> keeps llm (m ≫= k).
Proof.
  intros Hm Hk tr H. rewrite pbind_run. specialize (Hm tr H).
  destruct (m tr) as [tr' [a|e]]; [apply Hk|]; exact Hm.
Qed.

Lemma keeps_try {A} (m : prog (list event) A) (h : str -> prog (list event) A) :
  keeps llm m -> (forall e, keeps llm (h e)) -> keeps llm (try_except m h).
Proof.
  intros Hm Hh tr H. unfold try_except. specialize (Hm tr H).
  destruct (m tr) as [tr' [a|e]]; [|apply Hh]; exact Hm.
Qed.

Lemma keeps_invoke (docs : list Document) : keeps llm (chain_invoke complete llm docs).
Proof.
  intros tr H. unfold chain_invoke. simpl.
  apply Forall_app. split; [exact H|]. repeat constructor.
Qed.

Lemma keeps_split (docs : list Document) : keeps llm (split_documents text_splitter docs).
Proof.
  intros tr H. unfold split_documents. simpl.
  apply Forall_app. split; [exact H|]. repeat constructor.
Qed.

Lemma keeps_error (msg : str) : keeps llm (st_error msg).
Proof.
  intros tr H. unfold st_error. simpl.
  apply Forall_app. split; [exact H|]. repeat constructor.
Qed.

Lemma keeps_chunks (chunks acc : list Document) :
  keeps llm (summarize_chunks complete llm chunks acc).
Proof.
  revert acc. induction chunks as [|c chunks IH]; intros acc.
  - apply keeps_ret.
  - simpl. apply keeps_bind; [apply keeps_invoke|]. intros s. apply IH.
Qed.

Lemma keeps_summarize (documents : list Document) :
  keeps llm (summarize_documents complete text_splitter documents llm).
Proof.
  unfold summarize_documents.
  assert (Hs : keeps llm (chain_invoke complete llm documents ≫= λ s, mret (Some s))).
  { apply keeps_bind; [apply keeps_invoke|]. intros s. apply keeps_ret. }
  apply keeps_try.
  - destruct (is_large documents); [|exact Hs].
    apply keeps_bind; [apply keeps_split|]. intros split_docs.
    destruct (1 <? length split_docs); [|exact Hs].
    apply keeps_bind; [apply keeps_chunks|]. intros summaries.
    apply keeps_bind; [apply keeps_invoke|]. intros s. apply keeps_ret.
  - intros e. apply keeps_bind; [apply keeps_error|]. intros []. apply keeps_ret.
Qed.

End Keeps.

(** The client [get_llm] builds for a model of the catalog. *)
Lemma get_llm_selectable (selected : str) :
  selected ∈ dom GROQ_MODELS ->
  exists m,
    GROQ_MODELS !! selected = Some m
    /\ get_llm selected = Returns (mkChatGroq 0 (id m) None None 2).
Proof.
  intros Hd. apply elem_of_dom in Hd as [m Hm]. exists m. split; [exact Hm|].
  unfold get_llm, getitem. rewrite Hm. reflexivity.
Qed.

(** C6. For every model of the catalog, [get_llm] returns a client with
    temperature 0, no cap on the output length and 2 retries, and every
    completion call the pipeline then makes, on any documents, is made
    with that client. *)
Theorem completion_calls_configured
    (complete : ChatGroq -> list Document -> outcome str)
    (text_splitter : nat -> nat -> str -> list Document -> list Document)
    (selected : str) (documents : list Document) :
  selected ∈ dom GROQ_MODELS ->
  exists llm,
    get_llm selected = Returns llm
    /\ temperature llm = 0%Z
    /\ max_tokens llm = None
    /\ max_retries llm = 2%Z
    /\ forall l input,
         EInvoke l input ∈ (generate_summary complete text_splitter selected documents []).1 ->
         l = llm.
Proof.
  intros Hd. destruct (get_llm_selectable selected Hd) as (m & _ & Hg).
  eexists. split; [exact Hg|]. repeat split.
  intros l input Hin.
  unfold generate_summary in Hin. rewrite pbind_run in Hin.
  unfold lift in Hin. rewrite Hg in Hin.
  pose proof (keeps_summarize complete text_splitter
                (mkChatGroq 0 (id m) None None 2) documents []
                (Forall_nil_2 _)) as Hk.
  rewrite Forall_forall in Hk. exact (Hk _ Hin).
Qed.

(** An instance: the default model and three short documents. *)
Lemma completion_calls_configured_witness :
  exists llm,
    get_llm (py "🚀 Llama 3.1 8B (Fast)") = Returns llm
    /\ temperature llm = 0%Z
    /\ max_tokens llm = None
    /\ max_retries llm = 2%Z
    /\ forall l input,
         EInvoke l input ∈
           (generate_summary (stub echo) Chunker.text_splitter
              (py "🚀 Llama 3.1 8B (Fast)") short_docs []).1 ->
         l = llm.
Proof.
  apply (completion_calls_configured (stub echo) Chunker.text_splitter
           (py "🚀 Llama 3.1 8B (Fast)") short_docs).
  apply elem_of_dom. eexists. vm_compute. reflexivity.
Defined.

(** The catalog holds eight models. *)
Example catalog_size : size GROQ_MODELS = 8.
Proof. vm_compute. reflexivity. Qed.

End PipelineSpec.

(** * Analytics *)

Module AnalyticsSpec.
Import PyStr Analytics.

(** The fields of [s.split()], with a field already under way: its
    number, its contents and its shape. *)
Lemma split_ws_go_length (cur s : str) :
  length (split_ws_go cur s)
  = (if is_nil cur then 0 else 1) + word_starts (is_nil cur) s.
Proof.
  revert cur. induction s as [|c s IH]; intros cur.
  - destruct cur; reflexivity.
  - simpl. destruct (is_space c) eqn:E.
    + destruct cur as [|d cur].
      * rewrite IH. reflexivity.
      * simpl. rewrite IH. reflexivity.
    + rewrite IH. destruct cur; reflexivity.
Qed.

Lemma split_ws_go_concat (cur s : str) :
  concat (split_ws_go cur s)
  = rev cur ++ filter (fun c => is_space c = false) s.
Proof.
  revert cur. induction s as [|c s IH]; intros cur.
  - destruct cur; simpl; rewrite ?app_nil_r; reflexivity.
  - simpl split_ws_go. rewrite filter_cons.
    destruct (is_space c) eqn:E.
    + rewrite decide_False by discriminate.
      destruct cur as [|d cur].
      * apply IH.
      * cbn [concat]. rewrite IH. reflexivity.
    + rewrite decide_True by reflexivity.
      rewrite IH. simpl. rewrite <- app_assoc. reflexivity.
Qed.

Lemma split_ws_go_words (cur s : str) :
  Forall (fun c => is_space c = false) cur ->
  Forall is_word (split_ws_go cur s).
Proof.
  revert cur. induction s as [|c s IH]; intros cur Hcur.
  - destruct cur as [|d cur]; [constructor|].
    constructor; [|constructor]. split.
    + simpl. destruct (rev cur); discriminate.
    + apply Forall_rev, Hcur.
  - simpl. destruct (is_space c) eqn:E.
    + destruct cur as [|d cur]; [apply IH; constructor|].
      constructor; [|apply IH; constructor]. split.
      * simpl. destruct (rev cur); discriminate.
      * apply Forall_rev, Hcur.
    + apply IH. constructor; assumption.
Qed.

(** [len(s.split())] counts the words of the text: the places where a
    word starts. *)
Lemma split_ws_counts_words (s : str) :
  length (split_ws s) = word_starts true s.
Proof. unfold split_ws. rewrite split_ws_go_length. reflexivity. Qed.

(** C8. The analytics tab leaves the session state as it is and computes
    its five metrics from the summary text alone: the word count is the
    length of the text split on whitespace, which is the number of words
    of the text (the fields are words and, put together, the text without
    its whitespace); computing the metrics again on the unchanged text, or
    on any state with the same summary text, yields the same metrics. *)
Theorem analytics_pure (st : session_state) :
  let '(st1, a1) := analytics_tab st in
  let '(st2, a2) := analytics_tab st1 in
  st1 = st /\ st2 = st /\ a2 = a1
  /\ m_word_count a1 = Z.of_nat (length (split_ws (summary_result st)))
  /\ m_word_count a1 = Z.of_nat (word_starts true (summary_result st))
  /\ Forall is_word (split_ws (summary_result st))
  /\ concat (split_ws (summary_result st))
     = filter (fun c => is_space c = false) (summary_result st)
  /\ (forall st', summary_result st' = summary_result st ->
        (analytics_tab st').2 = a1).
Proof.
  unfold analytics_tab.
  split; [reflexivity|]. split; [reflexivity|]. split; [reflexivity|].
  split; [reflexivity|].
  split; [cbn [m_word_count]; unfold word_count;
          rewrite split_ws_counts_words; reflexivity|].
  split; [apply split_ws_go_words; constructor|].
  split; [apply (split_ws_go_concat [])|].
  intros st' H. simpl. rewrite H. reflexivity.
Qed.

Example analytics_sample :
  (analytics_tab
     (mkState (py "Two words. And a
second paragraph!") None true None [] [])).2
  = mkMetrics 6 34 1 2 2.
Proof. vm_compute. reflexivity. Qed.

Lemma word_count_nonneg (s : str) : (0 <= word_count s)%Z.
Proof. unfold word_count. lia. Qed.

(** C10. The reading time is [max(1, word_count // 200)]: at least one
    minute for every text, and exactly one for the empty text and for any
    text of fewer than 200 words. *)
Theorem reading_time_at_least_one (s : str) :
  reading_time s = Z.max 1 (word_count s / 200)
  /\ (1 <= reading_time s)%Z
  /\ reading_time [] = 1%Z
  /\ ((word_count s < 200)%Z -> reading_time s = 1%Z)
  /\ (analytics_tab (mkState s None true None [] [])).2.(m_reading_time)
     = reading_time s.
Proof.
  split; [reflexivity|]. split; [unfold reading_time; lia|].
  split; [reflexivity|]. split; [|reflexivity].
  intros H. unfold reading_time.
  pose proof (word_count_nonneg s).
  rewrite Z.div_small by lia. reflexivity.
Qed.

End AnalyticsSpec.

(** * Identifier extraction on well-formed URLs *)

Module VideoExtra.
Import PyStr PyStrFacts Video VideoSpec.

(** A character that is not in the separator does not help it match. *)
Lemma startswith_through (sep u y : str) (d : ascii) :
  ~ In d sep -> startswith sep (u ++ d :: y) = startswith sep u.
Proof.
  revert u. induction sep as [|a sep IH]; intros u Hd; [reflexivity|].
  destruct u as [|b u]; simpl.
  - destruct (Ascii.eqb a d) eqn:E; [|reflexivity].
    apply Ascii.eqb_eq in E. subst. exfalso. apply Hd. left. reflexivity.
  - rewrite IH; [reflexivity|]. intros H. apply Hd. right. exact H.
Qed.

(** The first field runs through a text free of the separator and over
    a character foreign to it. *)
Lemma split_first_through (sep x y : str) (d : ascii) :
  sep <> [] -> ~ In d sep -> contains sep x = false ->
  exists z tl, split sep (x ++ d :: y) = (x ++ d :: z) :: tl.
Proof.
  intros Hsep Hd. induction x as [|c x IH]; intros Hx.
  - simpl app. rewrite split_cons by assumption.
    pose proof (startswith_through sep [] y d Hd) as Hs. simpl app in Hs.
    rewrite Hs. clear Hs.
    pose proof (split_not_nil sep y Hsep) as Hn.
    destruct sep as [|a sep]; [congruence|]. simpl startswith. cbv iota.
    destruct (split (a :: sep) y) as [|z tl]; [congruence|].
    exists z, tl. reflexivity.
  - rewrite contains_cons in Hx. apply orb_false_elim in Hx as [Hs Hx].
    destruct (IH Hx) as (z & tl & Hsplit).
    rewrite <- app_comm_cons, split_cons by assumption.
    pose proof (startswith_through sep (c :: x) y d Hd) as Ht.
    rewrite <- app_comm_cons in Ht. rewrite Ht, Hs, Hsplit.
    exists z, tl. reflexivity.
Qed.

Lemma contains_char_absent (d : ascii) (x : str) :
  ~ In d x -> contains [d] x = false.
Proof.
  induction x as [|c x IH]; intros H; [reflexivity|].
  rewrite contains_cons. rewrite IH by (intros Hin; apply H; right; exact Hin).
  simpl. destruct (Ascii.eqb d c) eqn:E; [|reflexivity].
  apply Ascii.eqb_eq in E. subst. exfalso. apply H. left. reflexivity.
Qed.

(** Splitting on one character: the text up to its first occurrence is
    the first field. *)
Lemma split_char_first (d : ascii) (x z : str) :
  ~ In d x -> exists tl, split [d] (x ++ d :: z) = x :: tl.
Proof.
  assert (Hd : [d] <> []) by discriminate.
  induction x as [|c x IH]; intros Hx.
  - simpl app. rewrite split_cons by assumption. simpl.
    rewrite Ascii.eqb_refl. simpl. eexists. reflexivity.
  - destruct IH as [tl Htl]; [intros Hin; apply Hx; right; exact Hin|].
    rewrite <- app_comm_cons, split_cons by assumption. simpl startswith.
    destruct (Ascii.eqb d c) eqn:E.
    + apply Ascii.eqb_eq in E. subst. exfalso. apply Hx. left. reflexivity.
    + simpl. rewrite Htl. exists tl. reflexivity.
Qed.

(** The field [split(marker)[1].split(d)[0]] of a URL made of a prefix,
    the marker, an identifier and, possibly, [d] and a query. *)
Lemma field_of_built (marker : str) (d : ascii) (pre ident : str) :
  marker <> [] -> ~ In d marker ->
  (forall rest, split marker (pre ++ marker ++ rest) = pre :: split marker rest) ->
  ~ In d ident -> contains marker ident = false ->
  hd [] (split [d] (nth 1 (split marker (pre ++ marker ++ ident)) [])) = ident
  /\ forall q,
       hd [] (split [d] (nth 1 (split marker (pre ++ marker ++ ident ++ d :: q)) []))
       = ident.
Proof.
  intros Hm Hd Hpre Hi Hc. split.
  - rewrite Hpre, (split_absent marker ident Hm Hc). simpl nth.
    rewrite (split_absent [d] ident) by (discriminate || apply contains_char_absent, Hi).
    reflexivity.
  - intros q. rewrite Hpre.
    destruct (split_first_through marker ident q d Hm Hd Hc) as (z & tl & ->).
    simpl nth. destruct (split_char_first d ident z Hi) as [tl' ->]. reflexivity.
Qed.

(** Round trip, short form. A short link built from an identifier that
    holds no [?] and no ["youtu.be/"] gives the identifier back, alone or
    followed by [?] and any query. *)
Theorem short_link_round_trip (ident : str) :
  ~ In "?"%char ident ->
  contains (py "youtu.be/") ident = false ->
  extract_video_id (py "https://youtu.be/" ++ ident) = Returns (Some ident)
  /\ forall q,
       extract_video_id (py "https://youtu.be/" ++ ident ++ py "?" ++ q)
       = Returns (Some ident).
Proof.
  intros Hi Hc.
  assert (Hf := field_of_built (py "youtu.be/") "?"%char (py "https://") ident
                  short_marker).
  destruct Hf as [H1 H2]; try assumption.
  { vm_compute. intuition discriminate. }
  { intros rest. reflexivity. }
  split.
  - rewrite (extract_short (py "https://youtu.be/" ++ ident)).
    + f_equal. f_equal. exact H1.
    + apply (contains_app (py "youtu.be/") (py "https://") ident).
  - intros q. rewrite (extract_short (py "https://youtu.be/" ++ ident ++ py "?" ++ q)).
    + f_equal. f_equal. exact (H2 q).
    + apply (contains_app (py "youtu.be/") (py "https://") (ident ++ py "?" ++ q)).
Qed.

(** Round trip, watch form. A watch URL built from an identifier that
    holds no [&] and no ["watch?v="] gives the identifier back, alone or
    followed by [&] and further parameters, as long as ["youtu.be/"]
    occurs nowhere in the URL. *)
Theorem watch_link_round_trip (ident q : str) :
  ~ In "&"%char ident ->
  contains (py "watch?v=") ident = false ->
  contains (py "youtu.be/") (py "https://www.youtube.com/watch?v=" ++ ident ++ py "&" ++ q)
  = false ->
  extract_video_id (py "https://www.youtube.com/watch?v=" ++ ident ++ py "&" ++ q)
  = Returns (Some ident).
Proof.
  intros Hi Hc Hn.
  assert (Hf := field_of_built (py "watch?v=") "&"%char (py "https://www.youtube.com/")
                  ident watch_marker).
  destruct Hf as [_ H2]; try assumption.
  { vm_compute. intuition discriminate. }
  { intros rest. reflexivity. }
  rewrite extract_watch.
  - f_equal. f_equal. exact (H2 q).
  - exact Hn.
  - apply (contains_app (py "watch?v=") (py "https://www.youtube.com/")
             (ident ++ py "&" ++ q)).
Qed.

(** An instance: an identifier of eleven characters. *)
Lemma short_link_round_trip_witness :
  extract_video_id (py "https://youtu.be/" ++ py "dQw4w9WgXcQ")
  = Returns (Some (py "dQw4w9WgXcQ"))
  /\ forall q,
       extract_video_id (py "https://youtu.be/" ++ py "dQw4w9WgXcQ" ++ py "?" ++ q)
       = Returns (Some (py "dQw4w9WgXcQ")).
Proof.
  apply (short_link_round_trip (py "dQw4w9WgXcQ")).
  - vm_compute. intuition discriminate.
  - reflexivity.
Defined.

(** An instance: the same identifier with a time parameter. *)
Lemma watch_link_round_trip_witness :
  extract_video_id
    (py "https://www.youtube.com/watch?v=" ++ py "dQw4w9WgXcQ" ++ py "&" ++ py "t=42s")
  = Returns (Some (py "dQw4w9WgXcQ")).
Proof.
  apply (watch_link_round_trip (py "dQw4w9WgXcQ") (py "t=42s")).
  - vm_compute. intuition discriminate.
  - reflexivity.
  - reflexivity.
Defined.

End VideoExtra.

(** * Labels built from the model identifier *)

Module LabelsSpec.
Import PyStr PyStrFacts VideoExtra Catalog Labels.







Example download_filename_sample :
  download_filename (py "🔥 GPT-OSS 120B (Premium)") (py "YouTube") (py "20240131_235959")
  = Returns (py "youtube_openai_gpt-oss-120b_20240131_235959.txt").
Proof. vm_compute. reflexivity. Qed.

(** Every field of a split on one character is free of it. *)
Lemma split_char_fields (c : ascii) (s : str) :
  Forall (fun f => ~ In c f) (split [c] s).
Proof.
  assert (Hc : [c] <> []) by discriminate.
  induction s as [|x s IH]; [repeat constructor; intros []|].
  rewrite split_cons by assumption. simpl startswith. rewrite andb_true_r.
  destruct (Ascii.eqb c x) eqn:E.
  - simpl drop. constructor; [intros []|exact IH].
  - pose proof (split_not_nil [c] s Hc) as Hn.
    destruct (split [c] s) as [|f tl]; [congruence|].
    apply Forall_cons in IH as [Hf Htl]. constructor; [|exact Htl].
    intros [H | H]; [|exact (Hf H)].
    apply Ascii.eqb_neq in E. congruence.
Qed.

(** The joined text ends with the last field, after a separator if there
    is more than one field. *)
Lemma join_last (sep : str) (l : list str) (x : str) :
  last l = Some x ->
  exists front, join sep l = front ++ x /\ (front = [] \/ exists f, front = f ++ sep).
Proof.
  induction l as [|y l IH]; [discriminate|].
  destruct l as [|z l].
  - intros [= <-]. exists []. split; [reflexivity | left; reflexivity].
  - intros H. change (last (y :: z :: l)) with (last (z :: l)) in H.
    destruct (IH H) as (front & Hj & Hor).
    exists (y ++ sep ++ front). split.
    + rewrite join_cons2, Hj. rewrite <- !app_assoc. reflexivity.
    + right. destruct Hor as [-> | [f ->]].
      * exists y. rewrite app_nil_r. reflexivity.
      * exists (y ++ sep ++ f). rewrite <- !app_assoc. reflexivity.
Qed.

(** The "Model Used" label is the last component of the identifier: it
    holds no [/], the identifier ends with it, and what comes before it
    is empty or ends in [/]; so an identifier without [/] is shown whole. *)
Theorem model_used_last_component (selected_model : str) :
  selected_model ∈ dom GROQ_MODELS ->
  exists m label front,
    GROQ_MODELS !! selected_model = Some m
    /\ model_used selected_model = Returns label
    /\ ~ In "/"%char label
    /\ id m = front ++ label
    /\ (front = [] \/ exists f, front = f ++ py "/")
    /\ (~ In "/"%char (id m) -> label = id m).
Proof.
  intros Hd. apply elem_of_dom in Hd as [m Hm].
  unfold model_used, getitem. rewrite Hm.
  change (py "/") with ["/"%char].
  assert (Hc : ["/"%char] <> []) by discriminate.
  pose proof (split_not_nil ["/"%char] (id m) Hc) as Hn.
  pose proof (split_char_fields "/"%char (id m)) as Hf.
  pose proof (join_split ["/"%char] (id m) Hc) as Hj.
  destruct (last (split ["/"%char] (id m))) as [label|] eqn:Hl.
  2:{ apply last_None in Hl. congruence. }
  destruct (join_last ["/"%char] _ _ Hl) as (front & Hjoin & Hfront).
  exists m, label, front. split; [reflexivity|].
  split; [unfold index_last; cbn [mbind outcome_bind obind]; rewrite Hl; reflexivity|].
  split.
  { apply last_Some in Hl as [l' Hl]. rewrite Hl in Hf.
    apply Forall_app in Hf as [_ Hf]. apply Forall_cons in Hf as [Hf _]. exact Hf. }
  split; [rewrite <- Hj; exact Hjoin|]. split; [exact Hfront|].
  intros Hno. apply contains_char_absent in Hno.
  rewrite (split_absent ["/"%char] (id m) Hc Hno) in Hl. injection Hl as <-. reflexivity.
Qed.

(** An instance: a model whose identifier holds a [/]. *)
Lemma model_used_last_component_witness :
  exists m label front,
    GROQ_MODELS !! py "🔬 Llama 4 Maverick 17B" = Some m
    /\ model_used (py "🔬 Llama 4 Maverick 17B") = Returns label
    /\ ~ In "/"%char label
    /\ id m = front ++ label
    /\ (front = [] \/ exists f, front = f ++ py "/")
    /\ (~ In "/"%char (id m) -> label = id m).
Proof.
  apply (model_used_last_component (py "🔬 Llama 4 Maverick 17B")).
  apply elem_of_dom. eexists. vm_compute. reflexivity.
Defined.

Example model_used_samples :
  model_used (py "🔬 Llama 4 Maverick 17B")
  = Returns (py "llama-4-maverick-17b-128e-instruct")
  /\ model_used (py "🚀 Llama 3.1 8B (Fast)") = Returns (py "llama-3.1-8b-instant").
Proof. split; vm_compute; reflexivity. Qed.

End LabelsSpec.

(** * The loaders: what they return and what they leave behind *)

Module LoaderSpec.
Import PyStr PyStrFacts Video VideoSpec Pdf PdfSpec YouTube YouTubeSpec Url Samples.

(** The extraction of the identifier returns, on every URL. *)
Lemma extract_returns (url : str) : exists r, extract_video_id url = Returns r.
Proof.
  destruct (contains (py "youtu.be/") url) eqn:Hs.
  - eexists. apply extract_short, Hs.
  - destruct (contains (py "watch?v=") url) eqn:Hw.
    + eexists. apply extract_watch; assumption.
    + eexists. apply extract_neither; assumption.
Qed.

Section PdfLoader.

Variable temp_name : gmap str str -> str.
Variable parse_pdf : str -> outcome (list Document).

(** After a successful parse, with a temporary name that was free, the
    loader returns the pages and leaves the disk and the page exactly as
    they were. *)
Theorem load_pdf_restores_disk (uploaded : str) (pages : list Document) (w : world) :
  parse_pdf uploaded = Returns pages ->
  files w !! temp_name (files w) = None ->
  load_pdf_documents temp_name parse_pdf uploaded w = (w, Returns (Some pages)).
Proof.
  intros Hp Hfresh. rewrite (load_pdf_success _ _ _ _ _ Hp).
  rewrite delete_id by exact Hfresh. destruct w; reflexivity.
Qed.

(** The loader never raises: it returns the pages of the parser, or
    nothing when the parser raised, and then writes exactly one error
    message that carries the message of the exception. *)
Theorem load_pdf_never_raises (uploaded : str) (w : world) :
  exists w' r,
    load_pdf_documents temp_name parse_pdf uploaded w = (w', Returns r)
    /\ (forall pages, r = Some pages <-> parse_pdf uploaded = Returns pages)
    /\ (r = None <->
        exists e, parse_pdf uploaded = Raises e
                  /\ page w' = page w ++ [StError (py "Error loading PDF: " ++ e)]).
Proof.
  destruct (parse_pdf uploaded) as [pages|e] eqn:Hp.
  - rewrite (load_pdf_success _ _ _ _ _ Hp). eexists _, _. split; [reflexivity|].
    split.
    + intros pages'. split; intros [= ->]; reflexivity.
    + split; [discriminate | intros (e & [=] & _)].
  - rewrite (load_pdf_failure _ _ _ _ _ Hp). eexists _, _. split; [reflexivity|].
    split.
    + intros pages'. split; discriminate.
    + split; [|reflexivity]. intros _. exists e. split; reflexivity.
Qed.

End PdfLoader.

(** An instance: a well-formed upload on an empty disk. *)
Lemma load_pdf_restores_disk_witness :
  load_pdf_documents (fun _ => tmp_path) header_parser (py "%PDF-1.7 text")
    (mkWorld ∅ [])
  = (mkWorld ∅ [], Returns (Some [mkDocument (py "%PDF-1.7 text") ∅])).
Proof.
  apply (load_pdf_restores_disk (fun _ => tmp_path) header_parser).
  - reflexivity.
  - reflexivity.
Defined.

Section UrlLoader.

Variable url_loader_load : str -> outcome (list Document).

(** The URL loader never raises: it hands on the documents of the
    library loader untouched and writes nothing, or, when that loader
    raises, writes one error message with the exception's message and
    returns nothing. *)
Theorem load_url_never_raises (url : str) (page : list ui_event) :
  exists page' r,
    load_url_documents url_loader_load url page = (page', Returns r)
    /\ (forall docs, url_loader_load url = Returns docs ->
          r = Some docs /\ page' = page)
    /\ (forall e, url_loader_load url = Raises e ->
          r = None /\ page' = page ++ [StError (py "Error loading URL: " ++ e)]).
Proof.
  unfold load_url_documents, try_except, lift.
  unfold mbind, prog_bind, pbind.
  destruct (url_loader_load url) as [docs|e].
  - eexists _, _. split; [reflexivity|]. split.
    + intros docs' [= <-]. split; reflexivity.
    + intros e [=].
  - eexists _, _. split; [reflexivity|]. split.
    + intros docs [=].
    + intros e' [= <-]. split; reflexivity.
Qed.

End UrlLoader.

Section YouTubeLoader.

Variable available : bool.
Variable fetch : str -> outcome FetchedTranscript.
Variable youtube_loader_load : str -> outcome (list Document).

(** The branch taken once the identifier is known. *)
Lemma load_youtube_with_id (youtube_url video_id : str) (page : list ui_event) :
  extract_video_id youtube_url = Returns (Some video_id) ->
  video_id <> [] ->
  load_youtube_documents true fetch youtube_loader_load youtube_url page =
    match fetch video_id with
    | Returns t => (page, Returns (Some [transcript_document youtube_url video_id t]))
    | Raises e =>
        match youtube_loader_load youtube_url with
        | Returns docs => (page, Returns (Some docs))
        | Raises fe => (page ++ [StMarkdown (no_captions_html e fe)], Returns None)
        end
    end.
Proof.
  intros Hid Hne.
  unfold load_youtube_documents, try_except, lift, st_markdown.
  unfold mbind, prog_bind, pbind. cbn [negb]. rewrite Hid.
  destruct video_id as [|c v]; [congruence|].
  destruct (fetch (c :: v)); [reflexivity|].
  destruct (youtube_loader_load youtube_url); reflexivity.
Qed.

Lemma load_youtube_no_id (youtube_url : str) (page : list ui_event) :
  extract_video_id youtube_url = Returns None
  \/ extract_video_id youtube_url = Returns (Some []) ->
  load_youtube_documents true fetch youtube_loader_load youtube_url page
  = (page ++ [StError (py "Invalid YouTube URL format")], Returns None).
Proof.
  intros H.
  unfold load_youtube_documents, try_except, lift, st_markdown.
  unfold mbind, prog_bind, pbind. cbn [negb].
  destruct H as [-> | ->]; reflexivity.
Qed.

(** The YouTube loader never raises, whatever the URL and whatever the
    transcript service and the fallback loader do, and it writes at most
    one message to the page. *)
Theorem load_youtube_never_raises (youtube_url : str) (page : list ui_event) :
  exists msgs r,
    load_youtube_documents available fetch youtube_loader_load youtube_url page
    = (page ++ msgs, Returns r)
    /\ length msgs <= 1
    /\ (r = None <-> length msgs = 1).
Proof.
  destruct available.
  2:{ exists [StError (py "YouTube transcript functionality not available. Please install: pip install youtube-transcript-api")], None.
      split; [reflexivity|]. split; [simpl; lia|]. split; reflexivity. }
  destruct (extract_returns youtube_url) as (r & Hr).
  destruct r as [[|c v]|].
  - rewrite load_youtube_no_id by (right; exact Hr).
    eexists _, _. split; [reflexivity|]. split; [simpl; lia|]. split; reflexivity.
  - rewrite (load_youtube_with_id _ (c :: v)) by (exact Hr || discriminate).
    destruct (fetch (c :: v)) as [t|e].
    + exists [], (Some [transcript_document youtube_url (c :: v) t]).
      rewrite app_nil_r. split; [reflexivity|]. split; [simpl; lia|].
      split; discriminate.
    + destruct (youtube_loader_load youtube_url) as [docs|fe].
      * exists [], (Some docs).
        rewrite app_nil_r. split; [reflexivity|]. split; [simpl; lia|].
        split; discriminate.
      * eexists _, _. split; [reflexivity|]. split; [simpl; lia|].
        split; reflexivity.
  - rewrite load_youtube_no_id by (left; exact Hr).
    eexists _, _. split; [reflexivity|]. split; [simpl; lia|]. split; reflexivity.
Qed.

(** When the transcript fetch succeeds, the loader returns one document:
    its content is the snippets joined by single spaces, its metadata
    records the URL, the identifier, the language, the language code and
    whether the captions were generated; nothing is written to the page
    and the fallback loader plays no part. *)
Theorem load_youtube_primary
    (youtube_url video_id : str) (t : FetchedTranscript) (page : list ui_event) :
  extract_video_id youtube_url = Returns (Some video_id) ->
  video_id <> [] ->
  fetch video_id = Returns t ->
  exists doc,
    load_youtube_documents true fetch youtube_loader_load youtube_url page
    = (page, Returns (Some [doc]))
    /\ page_content doc = join (py " ") (snippets t)
    /\ metadata doc !! py "source" = Some (MStr youtube_url)
    /\ metadata doc !! py "video_id" = Some (MStr video_id)
    /\ metadata doc !! py "language" = Some (MStr (language t))
    /\ metadata doc !! py "language_code" = Some (MStr (language_code t))
    /\ metadata doc !! py "is_generated" = Some (MBool (is_generated t))
    /\ size (metadata doc) = 5.
Proof.
  intros Hid Hne Hf. eexists. split.
  - rewrite (load_youtube_with_id _ _ _ Hid Hne), Hf. reflexivity.
  - repeat split; reflexivity.
Qed.

(** When the transcript fetch fails and the fallback loader succeeds, the
    documents of the fallback are returned as they are and nothing is
    written to the page: the first failure leaves no trace. *)
Theorem load_youtube_fallback
    (youtube_url video_id e : str) (docs : list Document) (page : list ui_event) :
  extract_video_id youtube_url = Returns (Some video_id) ->
  video_id <> [] ->
  fetch video_id = Raises e ->
  youtube_loader_load youtube_url = Returns docs ->
  load_youtube_documents true fetch youtube_loader_load youtube_url page
  = (page, Returns (Some docs)).
Proof.
  intros Hid Hne Hf Hl.
  rewrite (load_youtube_with_id _ _ _ Hid Hne), Hf, Hl. reflexivity.
Qed.

(** A URL without an identifier is turned down before any service is
    asked: when the extraction yields nothing, or the empty identifier
    (nothing between the marker and the [?] or [&] after it), the loader
    writes "Invalid YouTube URL format" and returns nothing, whatever the
    services would do. *)
Theorem load_youtube_invalid (youtube_url : str) (page : list ui_event) :
  extract_video_id youtube_url = Returns None
  \/ extract_video_id youtube_url = Returns (Some []) ->
  load_youtube_documents true fetch youtube_loader_load youtube_url page
  = (page ++ [StError (py "Invalid YouTube URL format")], Returns None).
Proof. apply load_youtube_no_id. Qed.

End YouTubeLoader.

(** An instance: a short-form URL whose identifier is empty. *)
Lemma load_youtube_invalid_witness :
  load_youtube_documents true failing_fetch failing_loader
    (py "https://youtu.be/?t=5") []
  = ([] ++ [StError (py "Invalid YouTube URL format")], Returns None).
Proof.
  apply (load_youtube_invalid failing_fetch failing_loader).
  right. reflexivity.
Defined.

(** A transcript of two snippets. *)
Lemma load_youtube_primary_witness :
  exists doc,
    load_youtube_documents true
      (fun _ => Returns (mkTranscript [py "hello"; py "world"] (py "English") (py "en") true))
      failing_loader (py "https://youtu.be/ABC123?t=5") []
    = ([], Returns (Some [doc]))
    /\ page_content doc
       = join (py " ")
           (snippets (mkTranscript [py "hello"; py "world"] (py "English") (py "en") true))
    /\ metadata doc !! py "source" = Some (MStr (py "https://youtu.be/ABC123?t=5"))
    /\ metadata doc !! py "video_id" = Some (MStr (py "ABC123"))
    /\ metadata doc !! py "language" = Some (MStr (py "English"))
    /\ metadata doc !! py "language_code" = Some (MStr (py "en"))
    /\ metadata doc !! py "is_generated" = Some (MBool true)
    /\ size (metadata doc) = 5.
Proof.
  apply (load_youtube_primary
           (fun _ => Returns (mkTranscript [py "hello"; py "world"] (py "English") (py "en") true))
           failing_loader (py "https://youtu.be/ABC123?t=5") (py "ABC123")).
  - reflexivity.
  - discriminate.
  - reflexivity.
Defined.

(** A failing transcript service and a fallback that answers. *)
Lemma load_youtube_fallback_witness :
  load_youtube_documents true failing_fetch
    (fun url => Returns [mkDocument (py "transcript") ∅])
    (py "https://youtube.com/watch?v=XYZ789&list=PL1") []
  = ([], Returns (Some [mkDocument (py "transcript") ∅])).
Proof.
  apply (load_youtube_fallback failing_fetch
           (fun url => Returns [mkDocument (py "transcript") ∅])
           (py "https://youtube.com/watch?v=XYZ789&list=PL1") (py "XYZ789")
           (py "Could not retrieve a transcript for the video XYZ789")).
  - reflexivity.
  - discriminate.
  - reflexivity.
  - reflexivity.
Defined.

End LoaderSpec.

(** * The pipeline: further paths *)

Module PipelineExtra.
Import Catalog Pipeline PipelineSpec Samples Endings.

Section Paths.

Variable complete : ChatGroq -> list Document -> outcome str.
Variable text_splitter : nat -> nat -> str -> list Document -> list Document.

(** The loop over the chunks, when every call answers. *)
Lemma summarize_chunks_all
    (llm : ChatGroq) (chunks acc : list Document) (tr : list event) :
  Forall (fun c => exists s, complete llm [c] = Returns s) chunks ->
  exists summaries,
    summarize_chunks complete llm chunks acc tr =
      (tr ++ map (fun c => EInvoke llm [c]) chunks, Returns (acc ++ summaries))
    /\ length summaries = length chunks.
Proof.
  revert acc tr. induction chunks as [|c chunks IH]; intros acc tr Hall.
  - exists []. rewrite !app_nil_r. split; reflexivity.
  - apply Forall_cons in Hall as [[s Hs] Hall].
    destruct (IH (acc ++ [mkDocument s ∅]) (tr ++ [EInvoke llm [c]]) Hall)
      as (rest & Hrun & Hlen).
    exists (mkDocument s ∅ :: rest). split; [|simpl; lia].
    simpl summarize_chunks. rewrite pbind_run. unfold chain_invoke at 1.
    rewrite Hs, Hrun. rewrite <- !app_assoc. reflexivity.
Qed.

(** The loop stops at the first call that raises. *)
Lemma summarize_chunks_stops
    (llm : ChatGroq) (done : list Document) (c : Document) (rest acc : list Document)
    (e : str) (tr : list event) :
  Forall (fun c => exists s, complete llm [c] = Returns s) done ->
  complete llm [c] = Raises e ->
  summarize_chunks complete llm (done ++ c :: rest) acc tr =
    (tr ++ map (fun c => EInvoke llm [c]) done ++ [EInvoke llm [c]], Raises e).
Proof.
  revert acc tr. induction done as [|d done IH]; intros acc tr Hall Hc.
  - simpl. rewrite pbind_run. unfold chain_invoke. rewrite Hc. reflexivity.
  - apply Forall_cons in Hall as [[s Hs] Hall].
    simpl. rewrite pbind_run. unfold chain_invoke at 1. rewrite Hs.
    rewrite (IH _ _ Hall Hc). rewrite <- !app_assoc. reflexivity.
Qed.

(** Fail fast. In the chunked path, when the call on one chunk raises
    after the chunks before it were answered, no later chunk is sent and
    no final call is made: the trace ends with the failing call and the
    error message, and the pipeline returns nothing; the summaries
    obtained so far are dropped. *)
Theorem chunk_failure_stops
    (doc : Document) (llm : ChatGroq)
    (done : list Document) (c : Document) (rest : list Document) (e : str) :
  4000 < length (page_content doc) ->
  text_splitter 4000 200 nl [doc] = done ++ c :: rest ->
  1 < length (done ++ c :: rest) ->
  Forall (fun c => exists s, complete llm [c] = Returns s) done ->
  complete llm [c] = Raises e ->
  summarize_documents complete text_splitter [doc] llm [] =
    (ESplit [doc] :: map (fun c => EInvoke llm [c]) done
       ++ [EInvoke llm [c]; EPage (StError (py "Error during summarization: " ++ e))],
     Returns None).
Proof.
  intros Hlen Hsplit Hmany Hdone Hc.
  unfold summarize_documents, try_except.
  assert (Hl : is_large [doc] = true) by (apply Nat.ltb_lt, Hlen).
  rewrite Hl, pbind_run. unfold split_documents at 1. rewrite Hsplit.
  assert (Hm : (1 <? length (done ++ c :: rest)) = true) by (apply Nat.ltb_lt, Hmany).
  rewrite Hm, pbind_run, (summarize_chunks_stops _ _ _ _ _ _ _ Hdone Hc).
  unfold st_error. rewrite pbind_run. simpl. rewrite <- !app_assoc. reflexivity.
Qed.

(** A large document that the splitter leaves in one piece (or returns
    nothing for) is summarized in one call, and that call is made on the
    document as given, not on what the splitter returned. *)
Theorem unsplit_document_single_call (doc : Document) (llm : ChatGroq) :
  4000 < length (page_content doc) ->
  length (text_splitter 4000 200 nl [doc]) <= 1 ->
  summarize_documents complete text_splitter [doc] llm [] =
    match complete llm [doc] with
    | Returns s => ([ESplit [doc]; EInvoke llm [doc]], Returns (Some s))
    | Raises e =>
        ([ESplit [doc]; EInvoke llm [doc];
          EPage (StError (py "Error during summarization: " ++ e))],
         Returns None)
    end.
Proof.
  intros Hlen Hone.
  unfold summarize_documents, try_except.
  assert (Hl : is_large [doc] = true) by (apply Nat.ltb_lt, Hlen).
  rewrite Hl, pbind_run. unfold split_documents at 1.
  assert (Hm : (1 <? length (text_splitter 4000 200 nl [doc])) = false)
    by (apply Nat.ltb_ge, Hone).
  rewrite Hm, pbind_run. unfold chain_invoke.
  destruct (complete llm [doc]); reflexivity.
Qed.

(** The threshold is strict: a single document of up to 4000 characters,
    4000 included, goes to the completion service in one call without the
    splitter being called. *)
Theorem short_document_single_call (doc : Document) (llm : ChatGroq) :
  length (page_content doc) <= 4000 ->
  summarize_documents complete text_splitter [doc] llm [] =
    match complete llm [doc] with
    | Returns s => ([EInvoke llm [doc]], Returns (Some s))
    | Raises e =>
        ([EInvoke llm [doc];
          EPage (StError (py "Error during summarization: " ++ e))],
         Returns None)
    end.
Proof.
  intros Hlen. apply single_call. simpl. apply Nat.ltb_ge, Hlen.
Qed.

(** In a list of chunks, either every call answers or there is a first
    one that raises. *)
Lemma first_failure (llm : ChatGroq) (chunks : list Document) :
  Forall (fun c => exists s, complete llm [c] = Returns s) chunks
  \/ exists done c rest e,
       chunks = done ++ c :: rest
       /\ Forall (fun c => exists s, complete llm [c] = Returns s) done
       /\ complete llm [c] = Raises e.
Proof.
  induction chunks as [|c chunks IH]; [left; constructor|].
  destruct (complete llm [c]) as [s|e] eqn:Hc.
  - destruct IH as [Hall | (done & c' & rest & e & -> & Hdone & Hc')].
    + left. constructor; [exists s; exact Hc | exact Hall].
    + right. exists (c :: done), c', rest, e. split; [reflexivity|].
      split; [|exact Hc']. constructor; [exists s; exact Hc | exact Hdone].
  - right. exists [], c, chunks, e. split; [reflexivity|].
    split; [constructor | exact Hc].
Qed.

Lemma ends_well_called (llm : ChatGroq) (tr : list event) (r : option str) :
  ends_well complete llm tr r -> invocations tr <> [].
Proof.
  destruct r as [s|]; simpl.
  - intros (before & input & -> & _). rewrite invocations_app.
    intros H. apply app_eq_nil in H as [_ H]. discriminate H.
  - intros (before & input & e & -> & _). rewrite invocations_app.
    intros H. apply app_eq_nil in H as [_ H]. discriminate H.
Qed.

Lemma single_call_ends (documents : list Document) (llm : ChatGroq) (tr0 : list event) :
  exists tr r,
    (match complete llm documents with
     | Returns s => (tr0 ++ [EInvoke llm documents], Returns (Some s))
     | Raises e =>
         ((tr0 ++ [EInvoke llm documents])
            ++ [EPage (StError (py "Error during summarization: " ++ e))],
          Returns None)
     end) = (tr, Returns r)
    /\ ends_well complete llm tr r.
Proof.
  destruct (complete llm documents) as [s|e] eqn:Hc.
  - eexists _, _. split; [reflexivity|]. exists tr0, documents. auto.
  - eexists _, _. split; [reflexivity|]. exists tr0, documents, e.
    rewrite <- app_assoc. auto.
Qed.

(** Whatever the documents, the completion service and the splitter: the
    pipeline never raises and calls the service at least once (also on an
    empty list of documents); the summary it returns is the answer to the
    last call it made, and it returns nothing exactly when that last call
    raised, whose message is then the last thing written to the page. *)
Theorem summarize_never_raises (documents : list Document) (llm : ChatGroq) :
  exists tr r,
    summarize_documents complete text_splitter documents llm [] = (tr, Returns r)
    /\ invocations tr <> []
    /\ ends_well complete llm tr r.
Proof.
  assert (H : exists tr r,
             summarize_documents complete text_splitter documents llm [] = (tr, Returns r)
             /\ ends_well complete llm tr r).
  2:{ destruct H as (tr & r & Hrun & Hend). exists tr, r.
      split; [exact Hrun|]. split; [|exact Hend]. eapply ends_well_called, Hend. }
  destruct (is_large documents) eqn:Hl.
  2:{ rewrite (single_call _ _ _ _ _ Hl). apply single_call_ends. }
  unfold summarize_documents, try_except. rewrite Hl, pbind_run.
  unfold split_documents at 1.
  destruct (1 <? length (text_splitter 4000 200 nl documents)) eqn:Hm.
  2:{ rewrite pbind_run. unfold chain_invoke.
      destruct (complete llm documents) as [s|e] eqn:Hc.
      - eexists _, _. split; [reflexivity|].
        exists ([] ++ [ESplit documents]), documents. auto.
      - eexists _, _. split; [reflexivity|].
        exists [ESplit documents], documents, e. split; [reflexivity | exact Hc]. }
  rewrite pbind_run.
  destruct (first_failure llm (text_splitter 4000 200 nl documents))
    as [Hall | (done & c & rest & e & Heq & Hdone & Hc)].
  - destruct (summarize_chunks_all llm _ [] ([] ++ [ESplit documents]) Hall)
      as (summaries & Hrun & _).
    rewrite Hrun, pbind_run. unfold chain_invoke.
    destruct (complete llm ([] ++ summaries)) as [s|e] eqn:Hc.
    + eexists _, _. split; [reflexivity|]. eexists _, _. split; [reflexivity|].
      exact Hc.
    + eexists _, _. split; [reflexivity|].
      exists (([] ++ [ESplit documents])
                ++ map (fun c => EInvoke llm [c]) (text_splitter 4000 200 nl documents)),
        ([] ++ summaries), e.
      split; [|exact Hc]. symmetry. apply (app_assoc _ [_] [_]).
  - rewrite Heq, (summarize_chunks_stops _ _ _ _ _ _ _ Hdone Hc).
    eexists _, _. split; [reflexivity|].
    exists (ESplit documents :: map (fun c => EInvoke llm [c]) done), [c], e.
    split; [|exact Hc].
    transitivity ((([] ++ [ESplit documents]) ++ map (fun c => EInvoke llm [c]) done
                   ++ [EInvoke llm [c]])
                  ++ [EPage (StError (py "Error during summarization: " ++ e))]);
      [reflexivity|].
    rewrite <- !app_assoc. reflexivity.
Qed.

(** A model that is not in the catalog stops the run before anything is
    sent: [get_llm] raises and no completion or splitter call is made;
    [get_llm] returns exactly for the models of the catalog. *)
Theorem unknown_model_no_call (selected : str) (documents : list Document) :
  (GROQ_MODELS !! selected = None ->
   exists e,
     get_llm selected = Raises e
     /\ generate_summary complete text_splitter selected documents [] = ([], Raises e))
  /\ ((exists llm, get_llm selected = Returns llm) <-> selected ∈ dom GROQ_MODELS).
Proof.
  split.
  - intros Hn. exists selected.
    assert (Hg : get_llm selected = Raises selected)
      by (unfold get_llm, getitem; rewrite Hn; reflexivity).
    split; [exact Hg|].
    unfold generate_summary. rewrite pbind_run. unfold lift. rewrite Hg. reflexivity.
  - rewrite elem_of_dom. unfold get_llm, getitem.
    destruct (GROQ_MODELS !! selected) as [m|]; split.
    + intros _. exists m. reflexivity.
    + intros _. eexists. reflexivity.
    + intros [llm H]. discriminate H.
    + intros [m H]. discriminate H.
Qed.

End Paths.

(** An instance: three parts, the call on the second one fails. *)
Lemma chunk_failure_stops_witness :
  summarize_documents flaky three_parts_splitter [mkDocument flat_text ∅] llm0 [] =
    (ESplit [mkDocument flat_text ∅]
       :: map (fun c => EInvoke llm0 [c]) [mkDocument (py "part one") ∅]
       ++ [EInvoke llm0 [mkDocument (py "part two") ∅];
           EPage (StError (py "Error during summarization: "
                           ++ py "rate limit reached"))],
     Returns None).
Proof.
  apply (chunk_failure_stops flaky three_parts_splitter (mkDocument flat_text ∅) llm0
           [mkDocument (py "part one") ∅] (mkDocument (py "part two") ∅)
           [mkDocument (py "part three") ∅] (py "rate limit reached")).
  - apply Nat.ltb_lt. vm_compute. reflexivity.
  - reflexivity.
  - simpl. lia.
  - constructor; [|constructor]. eexists. reflexivity.
  - reflexivity.
Defined.

(** An instance: 9000 characters without a newline. *)
Lemma unsplit_document_single_call_witness :
  summarize_documents (stub echo) Chunker.text_splitter [mkDocument flat_text ∅] llm0 [] =
    match stub echo llm0 [mkDocument flat_text ∅] with
    | Returns s =>
        ([ESplit [mkDocument flat_text ∅]; EInvoke llm0 [mkDocument flat_text ∅]],
         Returns (Some s))
    | Raises e =>
        ([ESplit [mkDocument flat_text ∅]; EInvoke llm0 [mkDocument flat_text ∅];
          EPage (StError (py "Error during summarization: " ++ e))],
         Returns None)
    end.
Proof.
  apply (unsplit_document_single_call (stub echo) Chunker.text_splitter
           (mkDocument flat_text ∅) llm0).
  - apply Nat.ltb_lt. vm_compute. reflexivity.
  - apply Nat.leb_le. vm_compute. reflexivity.
Defined.

(** An instance: a document of exactly 4000 characters. *)
Lemma short_document_single_call_witness :
  summarize_documents (stub echo) Chunker.text_splitter
    [mkDocument (repeat "a"%char 4000) ∅] llm0 [] =
    match stub echo llm0 [mkDocument (repeat "a"%char 4000) ∅] with
    | Returns s =>
        ([EInvoke llm0 [mkDocument (repeat "a"%char 4000) ∅]], Returns (Some s))
    | Raises e =>
        ([EInvoke llm0 [mkDocument (repeat "a"%char 4000) ∅];
          EPage (StError (py "Error during summarization: " ++ e))],
         Returns None)
    end.
Proof.
  apply (short_document_single_call (stub echo) Chunker.text_splitter
           (mkDocument (repeat "a"%char 4000) ∅) llm0).
  apply Nat.leb_le. vm_compute. reflexivity.
Defined.

(** An instance: a name that is not a key of the catalog. *)
Example unknown_model_sample :
  generate_summary (stub echo) Chunker.text_splitter (py "gpt-4") short_docs []
  = ([], Raises (py "gpt-4")).
Proof. reflexivity. Qed.

End PipelineExtra.

(** * Analytics: how the metrics relate *)

Module AnalyticsExtra.
Import PyStr PyStrFacts Analytics AnalyticsSpec Marks.

(** Cutting a text at a whitespace character cuts its list of words. *)
Lemma split_ws_go_cut (cur a b : str) (c : ascii) :
  is_space c = true ->
  split_ws_go cur (a ++ c :: b) = split_ws_go cur a ++ split_ws b.
Proof.
  intros Hc. revert cur. induction a as [|x a IH]; intros cur.
  - simpl. rewrite Hc. destruct cur; reflexivity.
  - simpl. destruct (is_space x).
    + destruct cur; [apply IH|]. rewrite IH. reflexivity.
    + apply IH.
Qed.

(** The words of a text cut at whitespace are the words of the two
    parts, so the word count adds up; whitespace put before or after a
    text does not change its words. *)
Theorem words_cut_at_whitespace (a b : str) (c : ascii) :
  is_space c = true ->
  split_ws (a ++ c :: b) = split_ws a ++ split_ws b
  /\ word_count (a ++ c :: b) = (word_count a + word_count b)%Z
  /\ split_ws (c :: b) = split_ws b
  /\ split_ws (a ++ [c]) = split_ws a.
Proof.
  intros Hc.
  assert (H := split_ws_go_cut [] a b c Hc). fold (split_ws (a ++ c :: b)) in H.
  fold (split_ws a) in H.
  split; [exact H|]. split; [|split].
  - unfold word_count. rewrite H, length_app. lia.
  - exact (split_ws_go_cut [] [] b c Hc).
  - pose proof (split_ws_go_cut [] a [] c Hc) as H'.
    fold (split_ws (a ++ [c])) in H'. fold (split_ws a) in H'.
    rewrite H'. apply app_nil_r.
Qed.

(** An instance: a text cut at a space. *)
Lemma words_cut_at_whitespace_witness :
  split_ws (py "to be" ++ " "%char :: py "or not") = split_ws (py "to be") ++ split_ws (py "or not")
  /\ word_count (py "to be" ++ " "%char :: py "or not")
     = (word_count (py "to be") + word_count (py "or not"))%Z
  /\ split_ws (" "%char :: py "or not") = split_ws (py "or not")
  /\ split_ws (py "to be" ++ [" "%char]) = split_ws (py "to be").
Proof.
  apply (words_cut_at_whitespace (py "to be") (py "or not") " "%char).
  reflexivity.
Defined.

Lemma word_starts_bound (s : str) :
  2 * word_starts true s <= length s + 1 /\ 2 * word_starts false s <= length s.
Proof.
  induction s as [|c s [IHt IHf]]; [simpl; lia|].
  simpl. destruct (is_space c); simpl; lia.
Qed.

Lemma word_starts_false_le (s : str) : word_starts false s <= word_starts true s.
Proof. destruct s as [|c s]; [reflexivity|]. simpl. destruct (is_space c); simpl; lia. Qed.

(** Occurrences of a string of one character: the characters equal to
    it. *)
Lemma count_char (c : ascii) (s : str) :
  count [c] s = length (List.filter (Ascii.eqb c) s).
Proof.
  unfold count. induction s as [|x s IH]; [reflexivity|].
  simpl. rewrite andb_true_r. destruct (Ascii.eqb c x); simpl; rewrite IH; reflexivity.
Qed.

(** Words need room: a text of [n] characters has at most [(n + 1) / 2]
    words, so never more words than characters. *)
Theorem word_count_bound (s : str) :
  (0 <= word_count s)%Z
  /\ (2 * word_count s <= char_count s + 1)%Z
  /\ (word_count s <= char_count s)%Z.
Proof.
  unfold word_count, char_count. rewrite split_ws_counts_words.
  destruct (word_starts_bound s) as [H _].
  destruct s as [|c s]; simpl in *; lia.
Qed.

(** The sentence count is the number of characters that are a full stop,
    an exclamation mark or a question mark, wherever they stand: it never
    exceeds the character count, and a text without them has none. *)
Theorem sentences_are_marks (s : str) :
  sentences s = Z.of_nat (length (List.filter ends_sentence s))
  /\ (0 <= sentences s <= char_count s)%Z.
Proof.
  unfold sentences, char_count.
  change (py ".") with ["."%char]. change (py "!") with ["!"%char].
  change (py "?") with ["?"%char]. rewrite !count_char.
  assert (H : length (List.filter (Ascii.eqb "."%char) s)
              + length (List.filter (Ascii.eqb "!"%char) s)
              + length (List.filter (Ascii.eqb "?"%char) s)
              = length (List.filter ends_sentence s)
              /\ length (List.filter ends_sentence s) <= length s).
  { induction s as [|x s [IH1 IH2]]; [simpl; lia|].
    unfold ends_sentence in *. cbn [List.filter].
    destruct (Ascii.eqb "."%char x) eqn:E1; destruct (Ascii.eqb "!"%char x) eqn:E2;
      destruct (Ascii.eqb "?"%char x) eqn:E3;
      try (exfalso; apply Ascii.eqb_eq in E1; apply Ascii.eqb_eq in E2; congruence);
      try (exfalso; apply Ascii.eqb_eq in E1; apply Ascii.eqb_eq in E3; congruence);
      try (exfalso; apply Ascii.eqb_eq in E2; apply Ascii.eqb_eq in E3; congruence);
      cbn [orb length]; lia. }
  destruct H as [H1 H2]. split; lia.
Qed.

(** The reading time rounds down: a text of [200 n] to [200 n + 199]
    words, [n] at least 1, shows [n] minutes. *)
Theorem reading_time_rounds_down (s : str) (n : Z) :
  (1 <= n)%Z ->
  (200 * n <= word_count s < 200 * (n + 1))%Z ->
  reading_time s = n.
Proof.
  intros Hn Hw. unfold reading_time.
  assert (H : (word_count s / 200 = n)%Z).
  { symmetry. apply (Z.div_unique (word_count s) 200 n (word_count s - 200 * n)); lia. }
  rewrite H. lia.
Qed.

(** An instance: 599 words read in 2 minutes. *)
Lemma reading_time_rounds_down_witness :
  reading_time (concat (repeat (py "word ") 599)) = 2%Z.
Proof.
  apply (reading_time_rounds_down (concat (repeat (py "word ") 599)) 2).
  - lia.
  - assert (H : word_count (concat (repeat (py "word ") 599)) = 599%Z)
      by (vm_compute; reflexivity).
    rewrite H. lia.
Defined.

Lemma truthy_lstrip (p : str) : truthy (lstrip p) = existsb non_space p.
Proof.
  induction p as [|c p IH]; [reflexivity|].
  simpl. unfold non_space at 1. destruct (is_space c); [exact IH | reflexivity].
Qed.

Lemma existsb_lstrip (p : str) : existsb non_space (lstrip p) = existsb non_space p.
Proof.
  induction p as [|c p IH]; [reflexivity|].
  simpl. unfold non_space at 2. destruct (is_space c) eqn:E; [exact IH|].
  simpl. unfold non_space at 1. rewrite E. reflexivity.
Qed.

Lemma existsb_rev_eq (p : str) : existsb non_space (rev p) = existsb non_space p.
Proof.
  induction p as [|c p IH]; [reflexivity|].
  simpl. rewrite existsb_app, IH. simpl. rewrite orb_false_r. apply orb_comm.
Qed.

Lemma truthy_rev (p : str) : truthy (rev p) = truthy p.
Proof. destruct p as [|c p]; [reflexivity|]. simpl. destruct (rev p); reflexivity. Qed.

(** A line counts as a paragraph when it holds a character that is not
    whitespace. *)
Lemma truthy_strip (p : str) : truthy (strip p) = existsb non_space p.
Proof.
  unfold strip. rewrite truthy_rev, truthy_lstrip, existsb_rev_eq. apply existsb_lstrip.
Qed.

Lemma paragraph_lines_cons (p : str) (lines : list str) :
  paragraph_lines (p :: lines)
  = (if existsb non_space p then 1 else 0) + paragraph_lines lines.
Proof.
  unfold paragraph_lines. rewrite filter_cons, truthy_strip.
  destruct (existsb non_space p).
  - rewrite decide_True by reflexivity. reflexivity.
  - rewrite decide_False by discriminate. reflexivity.
Qed.

(** The lines of a text, one character at a time. *)
Lemma split_nl_cons (c : ascii) (s : str) :
  split nl (c :: s) =
    if Ascii.eqb (ascii_of_nat 10) c
    then [] :: split nl s
    else match split nl s with
         | x :: tl => (c :: x) :: tl
         | [] => []
         end.
Proof.
  rewrite split_cons by discriminate.
  change (startswith nl (c :: s)) with (Ascii.eqb (ascii_of_nat 10) c && true).
  rewrite andb_true_r. reflexivity.
Qed.

Lemma paragraphs_words (s : str) :
  forall x tl, split nl s = x :: tl ->
    paragraph_lines tl <= word_starts false s
    /\ paragraph_lines (x :: tl) <= word_starts true s.
Proof.
  assert (Hnl : nl <> []) by discriminate.
  induction s as [|c s IH]; intros x tl Hs.
  - injection Hs as <- <-. split; reflexivity.
  - rewrite split_nl_cons in Hs.
    pose proof (split_not_nil nl s Hnl) as Hn.
    destruct (split nl s) as [|x' tl'] eqn:Es; [congruence|].
    destruct (IH x' tl' eq_refl) as [IH1 IH2].
    pose proof (word_starts_false_le s) as Hle.
    destruct (Ascii.eqb (ascii_of_nat 10) c) eqn:E.
    + apply Ascii.eqb_eq in E. subst c.
      injection Hs as <- <-. rewrite !paragraph_lines_cons in *.
      cbn [word_starts existsb].
      assert (Hsp : is_space (ascii_of_nat 10) = true) by reflexivity.
      rewrite Hsp. simpl. lia.
    + injection Hs as <- <-. rewrite !paragraph_lines_cons in *.
      simpl existsb. unfold non_space at 1.
      simpl word_starts. destruct (is_space c); simpl; lia.
Qed.

(** The lines of a text: one more than its newlines. *)
Lemma split_count (s : str) : length (split nl s) = S (count nl s).
Proof.
  assert (Hnl : nl <> []) by discriminate.
  unfold count. induction s as [|c s IH]; [reflexivity|].
  rewrite split_nl_cons.
  change (count_go nl 0 (c :: s))
    with (if Ascii.eqb (ascii_of_nat 10) c && true
          then S (count_go nl 0 s) else count_go nl 0 s).
  rewrite andb_true_r.
  destruct (Ascii.eqb (ascii_of_nat 10) c).
  - simpl length. rewrite IH. reflexivity.
  - pose proof (split_not_nil nl s Hnl) as Hn.
    destruct (split nl s); [congruence|]. simpl in *. exact IH.
Qed.

Lemma paragraph_lines_le (lines : list str) : paragraph_lines lines <= length lines.
Proof. unfold paragraph_lines. apply length_filter. Qed.

(** Every paragraph holds a word: the paragraph count never exceeds the
    word count, nor the number of lines, which is the number of newlines
    plus one. *)
Theorem paragraphs_bound (s : str) :
  (0 <= paragraphs s <= word_count s)%Z
  /\ (paragraphs s <= Z.of_nat (count nl s) + 1)%Z.
Proof.
  assert (Hnl : nl <> []) by discriminate.
  unfold paragraphs, word_count. rewrite split_ws_counts_words.
  fold (paragraph_lines (split nl s)).
  pose proof (paragraph_lines_le (split nl s)) as Hlines. rewrite split_count in Hlines.
  pose proof (split_not_nil nl s Hnl) as Hn.
  destruct (split nl s) as [|x tl] eqn:Es; [congruence|].
  destruct (paragraphs_words s x tl Es) as [_ H]. lia.
Qed.

End AnalyticsExtra.

(** * The session state across runs *)

Module SessionSpec.
Import Session.

Lemma lookup_init_key (k j : str) (v : sval) (st : gmap str sval) :
  init_key k v st !! j =
    match st !! j with
    | Some x => Some x
    | None => if decide (k = j) then Some v else None
    end.
Proof.
  unfold init_key. destruct (st !! k) as [x|] eqn:E.
  - destruct (st !! j) eqn:Ej; [reflexivity|].
    case_decide; [subst; congruence | reflexivity].
  - rewrite lookup_insert. case_decide; [subst; rewrite E; reflexivity|].
    destruct (st !! j); reflexivity.
Qed.

Lemma lookup_drop_key (k j : str) (st : gmap str sval) :
  drop_key st k !! j = if decide (k = j) then None else st !! j.
Proof.
  unfold drop_key. destruct (st !! k) as [x|] eqn:E.
  - rewrite lookup_delete. case_decide; reflexivity.
  - case_decide; [subst; exact E | reflexivity].
Qed.

Section Keys.

(** Six keys, all different. *)
Variables a b c d e f : str.
Hypothesis distinct : NoDup [a; b; c; d; e; f].

Lemma keys_differ :
  a <> b /\ a <> c /\ a <> d /\ a <> e /\ a <> f
  /\ b <> c /\ b <> d /\ b <> e /\ b <> f
  /\ c <> d /\ c <> e /\ c <> f
  /\ d <> e /\ d <> f /\ e <> f.
Proof.
  repeat match goal with
         | H : NoDup (_ :: _) |- _ => apply NoDup_cons in H as [? H]
         end.
  repeat split; intros ->; set_solver.
Qed.

Variables va vb vc vd ve vf : sval.

Ltac by_cases :=
  repeat (case_decide; [subst|]; try (exfalso; congruence)).

Lemma drop_then_init (st : gmap str sval) :
  init_six a b c d e f va vb vc vd ve vf
    (drop_key (drop_key (drop_key (drop_key st a) c) b) d)
  = <[d := vd]> (<[a := va]> (<[b := vb]> (<[c := vc]>
      (init_six a b c d e f va vb vc vd ve vf st)))).
Proof.
  destruct keys_differ as (? & ? & ? & ? & ? & ? & ? & ? & ? & ? & ? & ? & ? & ? & ?).
  apply map_eq. intros j. unfold init_six.
  repeat first
    [ rewrite lookup_init_key | rewrite lookup_drop_key | rewrite lookup_insert ].
  destruct (st !! j); by_cases; reflexivity.
Qed.

Lemma init_six_keeps (st : gmap str sval) (k : str) (v : sval) :
  st !! k = Some v -> init_six a b c d e f va vb vc vd ve vf st !! k = Some v.
Proof.
  intros Hk. unfold init_six. repeat rewrite lookup_init_key.
  rewrite Hk. reflexivity.
Qed.

Lemma init_six_present (k : str) (st : gmap str sval) :
  In k [a; b; c; d; e; f] -> is_Some (init_six a b c d e f va vb vc vd ve vf st !! k).
Proof.
  destruct keys_differ as (? & ? & ? & ? & ? & ? & ? & ? & ? & ? & ? & ? & ? & ? & ?).
  intros Hin. simpl in Hin. unfold init_six. repeat rewrite lookup_init_key.
  destruct Hin as [<- | [<- | [<- | [<- | [<- | [<- | []]]]]]];
    destruct (st !! _); by_cases; eexists; reflexivity.
Qed.

Lemma init_six_twice (st : gmap str sval) :
  init_six a b c d e f va vb vc vd ve vf (init_six a b c d e f va vb vc vd ve vf st)
  = init_six a b c d e f va vb vc vd ve vf st.
Proof.
  destruct keys_differ as (? & ? & ? & ? & ? & ? & ? & ? & ? & ? & ? & ? & ? & ? & ?).
  apply map_eq. intros j. unfold init_six. repeat rewrite lookup_init_key.
  destruct (st !! j); by_cases; reflexivity.
Qed.

End Keys.

Lemma session_keys_distinct :
  NoDup [py "summary_result"; py "documents"; py "content_loaded";
         py "input_type"; py "selected_method"; py "selected_model"].
Proof. apply (bool_decide_unpack _). vm_compute. exact I. Qed.

(** "Create New Summary" followed by the initialisation block of the next
    run leaves the state that [reset_content_state] leaves on an
    initialised state, with the input type cleared as well: the four
    content fields are back at their defaults, the selected method and
    model and every other key are kept. *)
Theorem new_summary_resets (st : gmap str sval) :
  init_session_state (new_summary st)
  = <[py "input_type" := VNone]> (reset_content_state (init_session_state st)).
Proof.
  exact (drop_then_init _ _ _ _ _ _ session_keys_distinct _ _ _ _ _ _ st).
Qed.

(** The initialisation block never overwrites: a key that is present
    keeps its value (also the value [None]), all six keys are present
    afterwards, and running the block twice changes nothing more. *)
Theorem init_session_state_keeps (st : gmap str sval) :
  (forall k v, st !! k = Some v -> init_session_state st !! k = Some v)
  /\ (forall k, In k [py "summary_result"; py "documents"; py "content_loaded";
                      py "input_type"; py "selected_method"; py "selected_model"] ->
        is_Some (init_session_state st !! k))
  /\ init_session_state (init_session_state st) = init_session_state st.
Proof.
  split; [|split].
  - intros k v. apply init_six_keeps.
  - intros k. apply (init_six_present _ _ _ _ _ _ session_keys_distinct).
  - apply (init_six_twice _ _ _ _ _ _ session_keys_distinct).
Qed.

End SessionSpec.
